(** * dbmigration: reconciliation of two product catalogues

    A shallow embedding of [migrate.py]: text normalisation, the memoised
    similarity ratio, [Product.__eq__] and the matching loop of
    [Migrate.run], followed by the properties of the reconciliation. *)

From Stdlib Require Import Ascii String List Bool NArith ZArith Lia.
Import ListNotations.

Set Implicit Arguments.

(** ** Python values *)

(** A Python [str] is a sequence of Unicode code points; [bytes] is a
    sequence of octets.  Both are kept as lists of numbers. *)
Definition str := list N.
Definition bytes := list N.

(** Literals of the Basic Latin block. *)
Fixpoint lit (s : string) : str :=
  match s with
  | EmptyString => []
  | String a r => N_of_ascii a :: lit r
  end.

Fixpoint str_eqb (s t : str) : bool :=
  match s, t with
  | [], [] => true
  | a :: s', b :: t' => N.eqb a b && str_eqb s' t'
  | _, _ => false
  end.

(** The content of a spreadsheet cell, which is what a field of a row is:
    text, a number, or nothing. *)
Inductive value : Type :=
| VStr (s : str)
| VNum (n : Z)
| VNone.

(** [==] between cell values. *)
Definition value_eqb (a b : value) : bool :=
  match a, b with
  | VStr s, VStr t => str_eqb s t
  | VNum n, VNum m => Z.eqb n m
  | VNone, VNone => true
  | _, _ => false
  end.

(** [x in l] for a Python list. *)
Definition py_in (x : value) (l : list value) : bool :=
  existsb (value_eqb x) l.

Inductive exn : Type :=
| AttributeError
| IndexError
| IOError.

Inductive result (A : Type) : Type :=
| Ok (a : A)
| Raise (e : exn).
Arguments Ok {A} a.
Arguments Raise {A} e.

(** ** The Unicode database

    [unicodedata.normalize('NFKD', _)] and [str.lower] come from the
    interpreter.  The development is parametric in them.  Where a
    property needs it, two facts of the Unicode standard are assumed
    ([basic_latin_stable]): Basic Latin text is its own decomposition,
    and lower-casing Basic Latin text maps [A-Z] to [a-z] and nothing
    else. *)

Definition is_ascii (c : N) : bool := (c <? 128)%N.

Definition ascii_lower (c : N) : N :=
  if ((65 <=? c) && (c <=? 90))%N then (c + 32)%N else c.

Class Unicodedata : Type := {
  normalize_NFKD : str -> str;
  str_lower : str -> str
}.

Definition basic_latin_stable (U : Unicodedata) : Prop :=
  (forall s, forallb is_ascii s = true -> normalize_NFKD s = s) /\
  (forall s, forallb is_ascii s = true -> str_lower s = map ascii_lower s).

(** The database restricted to Basic Latin and Latin-1 Supplement
    (U+0000..U+00FF): the decomposition mappings and lower-case mappings
    of those code points.  Code points above U+00FF are left alone, so this
    instance stands for the interpreter on Latin-1 text only. *)
Module Latin1.

Definition grave : N := 768.       (* U+0300 *)
Definition acute : N := 769.       (* U+0301 *)
Definition circumflex : N := 770.  (* U+0302 *)
Definition tilde : N := 771.       (* U+0303 *)
Definition macron : N := 772.      (* U+0304 *)
Definition diaeresis : N := 776.   (* U+0308 *)
Definition ring : N := 778.        (* U+030A *)
Definition cedilla : N := 807.     (* U+0327 *)
Definition fraction_slash : N := 8260. (* U+2044 *)

(** Decomposition mappings of the upper-case letters U+00C0..U+00DE;
    the lower-case letters U+00E0..U+00FE decompose alike. *)
Definition upper_decomposition : list (N * (N * N)) :=
  [ (192, (65, grave)); (193, (65, acute)); (194, (65, circumflex));
    (195, (65, tilde)); (196, (65, diaeresis)); (197, (65, ring));
    (199, (67, cedilla));
    (200, (69, grave)); (201, (69, acute)); (202, (69, circumflex));
    (203, (69, diaeresis));
    (204, (73, grave)); (205, (73, acute)); (206, (73, circumflex));
    (207, (73, diaeresis));
    (209, (78, tilde));
    (210, (79, grave)); (211, (79, acute)); (212, (79, circumflex));
    (213, (79, tilde)); (214, (79, diaeresis));
    (217, (85, grave)); (218, (85, acute)); (219, (85, circumflex));
    (220, (85, diaeresis));
    (221, (89, acute)) ]%N.

(** Compatibility mappings of the symbols U+00A0..U+00BE. *)
Definition symbol_decomposition : list (N * list N) :=
  [ (160, [32]); (168, [32; diaeresis]); (170, [97]);
    (175, [32; macron]); (178, [50]); (179, [51]);
    (180, [32; acute]); (181, [956]); (184, [32; cedilla]);
    (185, [49]); (186, [111]);
    (188, [49; fraction_slash; 52]); (189, [49; fraction_slash; 50]);
    (190, [51; fraction_slash; 52]) ]%N.

Fixpoint assoc {A : Type} (c : N) (t : list (N * A)) : option A :=
  match t with
  | [] => None
  | (k, v) :: r => if (k =? c)%N then Some v else assoc c r
  end.

Definition decompose (c : N) : list N :=
  if is_ascii c then [c]
  else match assoc c symbol_decomposition with
       | Some d => d
       | None =>
           match assoc c upper_decomposition with
           | Some (b, m) => [b; m]
           | None =>
               if (c =? 255)%N then [121; diaeresis]%N
               else match assoc (c - 32)%N upper_decomposition with
                    | Some (b, m) => [(b + 32)%N; m]
                    | None => [c]
                    end
           end
       end.

Definition nfkd (s : str) : str := flat_map decompose s.

Definition lower_char (c : N) : N :=
  if is_ascii c then ascii_lower c
  else if ((192 <=? c) && (c <=? 222) && negb (c =? 215))%N
       then (c + 32)%N else c.

Definition lower (s : str) : str := map lower_char s.

Definition ucd : Unicodedata :=
  {| normalize_NFKD := nfkd; str_lower := lower |}.

End Latin1.

(** ** Normalisation *)

(** [s.encode('ascii', 'ignore')]: code points outside ASCII are dropped. *)
Definition encode_ascii_ignore (s : str) : bytes := filter is_ascii s.

Section Normalizer.
Context {U : Unicodedata}.

Definition get_normalize_description (description : str) : bytes :=
  let normalized := normalize_NFKD description in
  encode_ascii_ignore normalized.

End Normalizer.

(** ** Similarity score *)

Module Fuzz.

(** Modelled from the spec: the white space that delimits tokens; the
    scorer [fuzz.token_sort_ratio] belongs to the fuzzywuzzy package and
    is not in the repository.  On ASCII text white space is the blank and
    the controls U+0009..U+000D. *)
Definition is_space (c : N) : bool :=
  ((c =? 32) || ((9 <=? c) && (c <=? 13)))%N.

(** Modelled from the spec: "split each string into whitespace-delimited
    tokens" (fuzzywuzzy, absent).  [cur] holds the token being read, in
    reverse. *)
Fixpoint split_from (cur : list N) (s : bytes) : list bytes :=
  match s with
  | [] => match cur with [] => [] | _ => [rev cur] end
  | c :: r =>
      if is_space c then
        match cur with
        | [] => split_from [] r
        | _ => rev cur :: split_from [] r
        end
      else split_from (c :: cur) r
  end.

(** Modelled from the spec: the tokens of a string (fuzzywuzzy,
    absent). *)
Definition split (s : bytes) : list bytes := split_from [] s.

(** Modelled from the spec: the order in which tokens are sorted
    (fuzzywuzzy, absent): the lexicographic order of byte strings. *)
Fixpoint token_leb (a b : bytes) : bool :=
  match a, b with
  | [], _ => true
  | _ :: _, [] => false
  | x :: a', y :: b' =>
      if (x <? y)%N then true
      else if (y <? x)%N then false
      else token_leb a' b'
  end.

(** Modelled from the spec: one step of the sort, a token put in its
    place in a sorted list (fuzzywuzzy, absent). *)
Fixpoint insert (t : bytes) (l : list bytes) : list bytes :=
  match l with
  | [] => [t]
  | u :: r => if token_leb t u then t :: l else u :: insert t r
  end.

(** Modelled from the spec: "sort the token sets independently"
    (fuzzywuzzy, absent). *)
Definition sorted (l : list bytes) : list bytes := fold_right insert [] l.

(** Modelled from the spec: the tokens put together again, one blank
    between two of them (fuzzywuzzy, absent). *)
Fixpoint join (l : list bytes) : bytes :=
  match l with
  | [] => []
  | [t] => t
  | t :: r => t ++ 32%N :: join r
  end.

(** Modelled from the spec: "rejoin into a canonical string per input"
    (fuzzywuzzy, absent). *)
Definition process_and_sort (s : bytes) : bytes := join (sorted (split s)).

(** Modelled from the spec: "M is the number of matched characters found
    by a longest-common-subsequence-style alignment" (fuzzywuzzy,
    absent): the length of a longest common subsequence. *)
Fixpoint lcs (a b : bytes) : nat :=
  match a with
  | [] => 0
  | x :: a' =>
      (fix against (b : bytes) : nat :=
         match b with
         | [] => 0
         | y :: b' =>
             if (x =? y)%N then S (lcs a' b')
             else Nat.max (lcs a' b) (against b')
         end) b
  end.

(** Modelled from the spec: the row of [a] in the alignment table, its
    count against every suffix of [b] (fuzzywuzzy, absent). *)
Fixpoint row_of_lcs (a b : bytes) : list nat :=
  match b with
  | [] => [lcs a []]
  | _ :: b' => lcs a b :: row_of_lcs a b'
  end.

(** Modelled from the spec: the same number, one row of the alignment
    table at a time (fuzzywuzzy, absent).  [prev] is the row of [a']
    against every suffix of [b]; the result is the row of [x :: a']. *)
Fixpoint lcs_row (x : N) (b : bytes) (prev : list nat) : list nat :=
  match b with
  | [] => [0]
  | y :: b' =>
      let r := lcs_row x b' (tl prev) in
      (if (x =? y)%N then S (hd 0 (tl prev))
       else Nat.max (hd 0 prev) (hd 0 r)) :: r
  end.

(** Modelled from the spec: the first row of the table, built from the
    row of the empty string (fuzzywuzzy, absent). *)
Definition lcs_table (a b : bytes) : list nat :=
  fold_right (fun x prev => lcs_row x b prev) (repeat 0 (S (length b))) a.

(** Modelled from the spec: M, the number of matched characters
    (fuzzywuzzy, absent). *)
Definition matched (a b : bytes) : nat := hd 0 (lcs_table a b).

(** Modelled from the spec: "ratio = 100 x 2M / T, where [...] T is the
    total combined length of both strings", an integer in [0,100], and
    "a score of 100 means the token-sorted forms are identical"
    (fuzzywuzzy, absent).  Two empty forms are identical.  The spec names
    no rounding; the quotient is the integer quotient. *)
Definition ratio (s1 s2 : bytes) : Z :=
  let T := Z.of_nat (length s1 + length s2) in
  if (T =? 0)%Z then 100%Z
  else (100 * (2 * Z.of_nat (matched s1 s2)) / T)%Z.

(** Modelled from the spec: the token-order-insensitive score of
    section 4.2 (fuzzywuzzy, absent). *)
Definition token_sort_ratio (s1 s2 : bytes) : Z :=
  ratio (process_and_sort s1) (process_and_sort s2).

End Fuzz.

(** ** [functools.lru_cache]

    The cache of a memoised function of two positional arguments: the
    entries, most recently used first. *)

Definition key : Type := str * str.

Definition key_eqb (k1 k2 : key) : bool :=
  str_eqb (fst k1) (fst k2) && str_eqb (snd k1) (snd k2).

Definition lru : Type := list (key * Z).

Fixpoint cache_get (k : key) (c : lru) : option Z :=
  match c with
  | [] => None
  | (k', v) :: r => if key_eqb k k' then Some v else cache_get k r
  end.

Definition cache_del (k : key) (c : lru) : lru :=
  filter (fun e => negb (key_eqb k (fst e))) c.

(** A hit moves the entry to the front; a miss computes the value, stores
    it in front and, the cache being full, drops the least recently used
    entry. *)
Definition lru_cache (maxsize : nat) (f : key -> Z) (k : key) (c : lru)
  : Z * lru :=
  match cache_get k c with
  | Some v => (v, (k, v) :: cache_del k c)
  | None => let v := f k in (v, (k, v) :: firstn (maxsize - 1) c)
  end.

(** ** Effects

    A computation reads and updates the ratio cache, appends to the trace
    of operations on the two sources and on the sink, and returns or
    raises. *)

Inductive db_id : Type := Db1 | Db2.

Inductive event : Type :=
| SourceRow (db : db_id) (row : list value)
| SinkEnter
| SinkWriterow (row : list value)
| SinkExit.

Definition trace : Type := list event.

Definition M (A : Type) : Type := lru -> result A * lru * trace.

Definition ret {A} (a : A) : M A := fun c => (Ok a, c, []).

Definition raise {A} (e : exn) : M A := fun c => (Raise e, c, []).

Definition bind {A B} (m : M A) (k : A -> M B) : M B :=
  fun c =>
    match m c with
    | (Ok a, c1, t1) =>
        match k a c1 with
        | (r, c2, t2) => (r, c2, t1 ++ t2)
        end
    | (Raise e, c1, t1) => (Raise e, c1, t1)
    end.

Definition emit (ev : event) : M unit := fun c => (Ok tt, c, [ev]).

Declare Scope py_scope.
Delimit Scope py_scope with py.
Notation "x <- m ;; k" := (bind m (fun x => k))
  (at level 61, m at next level, right associativity) : py_scope.
Notation "m ;; k" := (bind m (fun _ => k))
  (at level 61, right associativity) : py_scope.
Open Scope py_scope.

Definition outcome {A} (x : result A * lru * trace) : result A := fst (fst x).
Definition cache_of {A} (x : result A * lru * trace) : lru := snd (fst x).
Definition trace_of {A} (x : result A * lru * trace) : trace := snd x.

(** ** Products *)

Definition MIN_RATIO_EQUIVALENCE : Z := 90.

Record Product : Type := mkProduct {
  description : value;
  price : value
}.

(** [v.lower()]: only text has the method. *)
Definition lower_method {U : Unicodedata} (v : value) : M str :=
  match v with
  | VStr s => ret (str_lower s)
  | _ => raise AttributeError
  end.

Section Equivalence.
Context {U : Unicodedata}.

(** The body of the memoised function. *)
Definition description_equivalence_ratio (k : key) : Z :=
  Fuzz.token_sort_ratio
    (get_normalize_description (fst k))
    (get_normalize_description (snd k)).

Definition calc_description_equivalence_ratio (desc1 desc2 : str) : M Z :=
  fun c =>
    let (ratio, c') :=
      lru_cache 50 description_equivalence_ratio (desc1, desc2) c in
    (Ok ratio, c', []).

(** [Product.__eq__] *)
Definition Product_eq (self product : Product) : M bool :=
  d1 <- lower_method (description self) ;;
  d2 <- lower_method (description product) ;;
  ratio <- calc_description_equivalence_ratio d1 d2 ;;
  ret (MIN_RATIO_EQUIVALENCE <=? ratio)%Z.

End Equivalence.

(** ** Sources and sink *)

(** What the generator [db.read()] does when it is resumed: it yields a row
    or it raises.  A source is the finite sequence of these steps. *)
Inductive read_step : Type :=
| Yield (row : list value)
| Fail (e : exn).

Definition BaseReadDB : Type := list read_step.

(** [row[i]] *)
Definition getitem (row : list value) (i : nat) : M value :=
  match nth_error row i with
  | Some v => ret v
  | None => raise IndexError
  end.

(** [try: body finally: exit] *)
Definition finally {A} (body : M A) (exit : M unit) : M A :=
  fun c =>
    match body c with
    | (r, c1, t1) =>
        match exit c1 with
        | (Ok _, c2, t2) => (r, c2, t1 ++ t2)
        | (Raise e, c2, t2) => (Raise e, c2, t1 ++ t2)
        end
    end.

(** [with output_db as output: body] *)
Definition with_output {A} (body : M A) : M A :=
  emit SinkEnter ;; finally body (emit SinkExit).

(** ** [Migrate] *)

Record Migrate : Type := mkMigrate {
  db1 : option BaseReadDB;
  db2 : option BaseReadDB
}.

Definition Migrate_init : Migrate := {| db1 := None; db2 := None |}.

Definition set_db1 (self : Migrate) (db : BaseReadDB) : Migrate :=
  {| db1 := Some db; db2 := db2 self |}.

Definition set_db2 (self : Migrate) (db : BaseReadDB) : Migrate :=
  {| db1 := db1 self; db2 := Some db |}.

(** The generator of [_iter_products_from_db], run to its end. *)
Fixpoint iter_products (id : db_id) (products : list read_step)
  : M (list Product) :=
  match products with
  | [] => ret []
  | Fail e :: _ => raise e
  | Yield product :: rest =>
      emit (SourceRow id product) ;;
      d <- getitem product 0 ;;
      p <- getitem product 1 ;;
      ps <- iter_products id rest ;;
      ret ({| description := d; price := p |} :: ps)
  end.

(** [list(self._iter_products_from_db(db))]; a database that was never
    set is [None], which has no [read]. *)
Definition _iter_products_from_db (id : db_id) (db : option BaseReadDB)
  : M (list Product) :=
  match db with
  | None => raise AttributeError
  | Some products => iter_products id products
  end.

Section Run.
Context {U : Unicodedata}.

(** The inner loop of [run]: [product_from_db1] against every product of
    the second database. *)
Fixpoint for_db2 (product_from_db1 : Product)
    (products_from_db2 : list Product)
    (last_recently_migrated_products : list value) : M (list value) :=
  match products_from_db2 with
  | [] => ret last_recently_migrated_products
  | product_from_db2 :: rest =>
      same <- Product_eq product_from_db1 product_from_db2 ;;
      if same then
        if py_in (description product_from_db1)
                 last_recently_migrated_products
        then for_db2 product_from_db1 rest last_recently_migrated_products
        else
          (emit (SinkWriterow [description product_from_db1;
                               price product_from_db2]) ;;
           for_db2 product_from_db1 rest
             (last_recently_migrated_products
                ++ [description product_from_db1]))
      else for_db2 product_from_db1 rest last_recently_migrated_products
  end.

(** The outer loop of [run]. *)
Fixpoint for_db1 (products_from_db1 products_from_db2 : list Product)
    (last_recently_migrated_products : list value) : M (list value) :=
  match products_from_db1 with
  | [] => ret last_recently_migrated_products
  | product_from_db1 :: rest =>
      migrated <- for_db2 product_from_db1 products_from_db2
                    last_recently_migrated_products ;;
      for_db1 rest products_from_db2 migrated
  end.

Definition run (self : Migrate) : M unit :=
  products_from_db1 <- _iter_products_from_db Db1 (db1 self) ;;
  products_from_db2 <- _iter_products_from_db Db2 (db2 self) ;;
  let last_recently_migrated_products := [] in
  with_output
    (for_db1 products_from_db1 products_from_db2
       last_recently_migrated_products ;;
     ret tt).

End Run.

(** ** Observations on a trace *)

(** The outcome of a block that ends in [ret tt]. *)
Definition unit_outcome (r : result (list value)) : result unit :=
  match r with
  | Ok _ => Ok tt
  | Raise e => Raise e
  end.

(** The rows appended to the sink, in order. *)
Fixpoint written (t : trace) : list (list value) :=
  match t with
  | [] => []
  | SinkWriterow row :: r => row :: written r
  | _ :: r => written r
  end.

(** The operations on the sink: open, append, finalise. *)
Definition is_sink_event (ev : event) : bool :=
  match ev with
  | SourceRow _ _ => false
  | _ => true
  end.

Definition sink_events (t : trace) : trace := filter is_sink_event t.

Definition row_description (row : list value) : value := hd VNone row.

(** A source that yields the given rows and ends. *)
Definition source_of (rows : list (list value)) : BaseReadDB := map Yield rows.

Definition row_of (p : Product) : list value := [description p; price p].

(** The run of [Migrate] on two materialised catalogues. *)
Definition migrate_of (primary secondary : list Product) : Migrate :=
  set_db2 (set_db1 Migrate_init (source_of (map row_of primary)))
          (source_of (map row_of secondary)).

(** Reading the sources fails with [e]: the first source raises it, or the
    first is materialised and the second raises it. *)
Definition reading_fails (self : Migrate) (c : lru) (e : exn) : Prop :=
  outcome (_iter_products_from_db Db1 (db1 self) c) = Raise e
  \/ ((exists l1, outcome (_iter_products_from_db Db1 (db1 self) c) = Ok l1)
      /\ outcome (_iter_products_from_db Db2 (db2 self) c) = Raise e).

(** Letter case of Basic Latin text. *)
Definition is_upper (c : N) : bool := ((65 <=? c) && (c <=? 90))%N.
Definition is_lower (c : N) : bool := ((97 <=? c) && (c <=? 122))%N.

(** No mixed case: the text does not hold both an upper-case and a
    lower-case letter. *)
Definition single_case (s : bytes) : bool :=
  negb (existsb is_upper s && existsb is_lower s).

(** ** The reconciliation as the specification words it *)

Section Specification.
Context {U : Unicodedata}.

Definition score (a b : bytes) : Z := Fuzz.token_sort_ratio a b.

(** "[equivalent(a, b)] is true iff
    [score(normalize(lower(a.description)),
           normalize(lower(b.description))) >= 90]". *)
Definition spec_equivalent (a b : str) : bool :=
  (90 <=? score (get_normalize_description (str_lower a))
                (get_normalize_description (str_lower b)))%Z.

Definition is_text (p : Product) : bool :=
  match description p with
  | VStr _ => true
  | _ => false
  end.

(** Equivalence of two records whose descriptions are text. *)
Definition matches (p s : Product) : bool :=
  match description p, description s with
  | VStr a, VStr b => spec_equivalent a b
  | _, _ => false
  end.

(** "the first secondary record (in secondary's iteration order) that
    equivalence-matches it". *)
Definition first_match (p : Product) (secondary : list Product)
  : option Product :=
  find (matches p) secondary.

(** Section 4.4 read as first-match-wins: one row per primary record
    that has a match and whose description was not emitted before. *)
Fixpoint spec_reconcile (primary secondary : list Product)
    (emitted : list value) : list (list value) :=
  match primary with
  | [] => []
  | p :: rest =>
      match first_match p secondary with
      | Some s =>
          if py_in (description p) emitted
          then spec_reconcile rest secondary emitted
          else [description p; price s]
                 :: spec_reconcile rest secondary
                      (emitted ++ [description p])
      | None => spec_reconcile rest secondary emitted
      end
  end.

(** The rows of one pass over the secondary sequence. *)
Definition pass_rows (p : Product) (secondary : list Product)
    (emitted : list value) : list (list value) :=
  if py_in (description p) emitted then []
  else match first_match p secondary with
       | Some s => [[description p; price s]]
       | None => []
       end.

(** Every entry of the cache holds the value the memoised function
    computes for its key. *)
Definition cache_ok (c : lru) : Prop :=
  Forall (fun e => snd e = description_equivalence_ratio (fst e)) c.

End Specification.

(** ** Sample catalogues *)

Module Sample.

Definition product (d : str) (p : Z) : Product :=
  {| description := VStr d; price := VNum p |}.

(** Three descriptions, each one letter away from the next. *)
Definition tenA : str := lit "aaaaaaaaaa".
Definition nineA_B : str := lit "aaaaaaaaab".
Definition eightA_BB : str := lit "aaaaaaaabb".

(** The descriptions of [tests.py]; the letters outside Basic Latin are
    written as code points: U+00D4, U+00E2, U+00C3. *)
Definition colonia_avon_london : str :=
  lit "COL" ++ [212%N] ++ lit "NIA DESODORANTE AVON 015 LONDON".
Definition coloniia_avao_london : str :=
  lit "cOlONiI" ++ [226%N] ++ lit " DEZODORRANTE AV" ++ [195%N]
      ++ lit "O 015 LONDON".
Definition colonia_musk_marine : str :=
  lit "COL" ++ [212%N] ++ lit "NIA DESODORANTE MUSK MARINE".
Definition colonia_musk_fresh : str :=
  lit "COL" ++ [212%N] ++ lit "NIA DESODORANTE MUSK FRESH".
Definition colonia_avon_turbo : str :=
  lit "COL" ++ [212%N] ++ lit "NIA DESODORANTE AVON 300 KM/H MAX TURBO".
Definition coloniia_avao_turbo : str :=
  lit "cOlONiI" ++ [226%N] ++ lit " DEZODORRANTE AV" ++ [195%N]
      ++ lit "O 300 KM/H MAX TURBO".
Definition avon_luck : str := lit "AVON LUCK FOR HIM DEO PARFUM".
Definition avao_luck : str :=
  lit "AV" ++ [195%N] ++ lit "O luck for him deo parfum".

(** A source whose second row has a single field. *)
Definition short_row_source : BaseReadDB :=
  [Yield [VStr tenA; VNum 1]; Yield [VStr nineA_B]].

End Sample.

(** ** The sources and sinks of the repository *)

(** The record a row of a source becomes: its first two fields. *)
Definition product_of_row (row : list value) : Product :=
  {| description := nth 0 row VNone; price := nth 1 row VNone |}.

(** [MockOutputDB] of [tests.py].  [STORE] is an attribute of the class,
    shared by all its instances: [writerow] appends to it, [__enter__]
    and [__exit__] leave it alone. *)
Definition MockOutputDB_event (STORE : list (list value)) (ev : event)
  : list (list value) :=
  match ev with
  | SinkWriterow row => STORE ++ [row]
  | _ => STORE
  end.

(** [STORE] after the operations of a trace. *)
Definition MockOutputDB_trace (STORE : list (list value)) (t : trace)
  : list (list value) :=
  fold_left MockOutputDB_event t STORE.






(** [XlsxReadDB.read] consumed by [list(_iter_products_from_db(db))]: the
    rows of the active sheet are yielded one by one; the [else] branch of
    the loop, which closes the reader, is reached when the rows are
    exhausted, and never when the consumer stops at a row it cannot
    index.  The result is the materialisation and whether the reader was
    closed. *)
Fixpoint XlsxReadDB_products (sheet_values : list (list value))
  : result (list Product) * bool :=
  match sheet_values with
  | [] => (Ok [], true)
  | row :: rest =>
      match row with
      | d :: p :: _ =>
          match XlsxReadDB_products rest with
          | (Ok ps, closed) =>
              (Ok ({| description := d; price := p |} :: ps), closed)
          | (Raise e, closed) => (Raise e, closed)
          end
      | _ => (Raise IndexError, false)
      end
  end.

(** ** Order of the output *)

(** [l1] is [l2] with some elements left out. *)
Inductive Subseq {A : Type} : list A -> list A -> Prop :=
| Subseq_nil : Subseq [] []
| Subseq_skip (x : A) (l1 l2 : list A) : Subseq l1 l2 -> Subseq l1 (x :: l2)
| Subseq_take (x : A) (l1 l2 : list A) :
    Subseq l1 l2 -> Subseq (x :: l1) (x :: l2).

(** The row written for a primary record and the secondary record that
    gave its price. *)
Definition row_of_pair (ps : Product * Product) : list value :=
  [description (fst ps); price (snd ps)].

(** The cache holds at most the 50 entries of [maxsize]. *)
Definition cache_bounded (c : lru) : Prop := length c <= 50.

(** ** Further sample records *)

Module Cases.

(** A record whose description is a number. *)
Definition numbered : Product :=
  {| description := VNum 3; price := VNum 1 |}.

(** Two Latin-1 letters that have no decomposition: U+00D8 and U+00DE. *)
Definition o_stroke : str := [216%N].
Definition thorn : str := [222%N].

Definition avon_upper : str := lit "AVON LUCK".
Definition avon_mixed : str := lit "Avon Luck".
Definition avon_lower : str := lit "avon luck".

(** A cache that remembers one true ratio. *)
Definition one_entry : lru := [((lit "a", lit "a"), 100%Z)].

(** Rows of a sheet: the first has a third field, the last has one
    field only. *)
Definition three_fields : list value := [VStr Sample.tenA; VNum 1; VNone].
Definition one_field : list value := [VStr Sample.nineA_B].

End Cases.

(** * Properties *)

(** ** Equality tests *)

Lemma str_eqb_eq (s t : str) : str_eqb s t = true <-> s = t.
Proof.
  revert t. induction s as [|a s IH]; intros [|b t]; simpl;
    try (split; [discriminate | discriminate]); [tauto|].
  rewrite andb_true_iff, N.eqb_eq, IH. split.
  - intros [-> ->]. reflexivity.
  - intros H. injection H as -> ->. auto.
Qed.

Lemma str_eqb_refl (s : str) : str_eqb s s = true.
Proof. now apply str_eqb_eq. Qed.

Lemma value_eqb_eq (a b : value) : value_eqb a b = true <-> a = b.
Proof.
  destruct a, b; simpl; try (split; [discriminate | discriminate]).
  - rewrite str_eqb_eq. split; [now intros -> | now injection 1].
  - rewrite Z.eqb_eq. split; [now intros -> | now injection 1].
  - tauto.
Qed.

Lemma py_in_In (x : value) (l : list value) : py_in x l = true <-> In x l.
Proof.
  unfold py_in. rewrite existsb_exists. split.
  - intros (y & Hy & E). apply value_eqb_eq in E. now subst.
  - intros H. exists x. split; [assumption | now apply value_eqb_eq].
Qed.

Lemma py_in_not_In (x : value) (l : list value) :
  py_in x l = false <-> ~ In x l.
Proof.
  rewrite <- py_in_In. destruct (py_in x l); split; congruence.
Qed.

Lemma key_eqb_eq (k1 k2 : key) : key_eqb k1 k2 = true <-> k1 = k2.
Proof.
  destruct k1 as [a b], k2 as [a' b']. unfold key_eqb. simpl.
  rewrite andb_true_iff, !str_eqb_eq. split.
  - now intros [-> ->].
  - now injection 1.
Qed.

(** ** The alignment count *)

Module FuzzFacts.
Import Fuzz.

Lemma lcs_cons (x y : N) (a b : bytes) :
  lcs (x :: a) (y :: b) =
  if (x =? y)%N then S (lcs a b)
  else Nat.max (lcs a (y :: b)) (lcs (x :: a) b).
Proof. reflexivity. Qed.

Lemma lcs_nil_r (a : bytes) : lcs a [] = 0.
Proof. destruct a; reflexivity. Qed.

Lemma lcs_sym (a b : bytes) : lcs a b = lcs b a.
Proof.
  revert b. induction a as [|x a IHa]; intros b.
  - now rewrite lcs_nil_r.
  - induction b as [|y b IHb].
    + reflexivity.
    + rewrite !lcs_cons, (N.eqb_sym y x).
      destruct (x =? y)%N.
      * now rewrite IHa.
      * rewrite (IHa (y :: b)), IHb. apply Nat.max_comm.
Qed.

Lemma lcs_le_l (a b : bytes) : lcs a b <= length a.
Proof.
  revert b. induction a as [|x a IHa]; intros b; [reflexivity|].
  induction b as [|y b IHb]; [simpl; lia|].
  rewrite lcs_cons. destruct (x =? y)%N.
  - specialize (IHa b). simpl. lia.
  - specialize (IHa (y :: b)). simpl in *. lia.
Qed.

Lemma lcs_refl (a : bytes) : lcs a a = length a.
Proof.
  induction a as [|x a IH]; [reflexivity|].
  rewrite lcs_cons, N.eqb_refl, IH. reflexivity.
Qed.

Lemma hd_row_of_lcs (a b : bytes) : hd 0 (row_of_lcs a b) = lcs a b.
Proof. destruct b; simpl; [now rewrite lcs_nil_r | reflexivity]. Qed.

Lemma tl_row_of_lcs (a : bytes) (y : N) (b : bytes) :
  tl (row_of_lcs a (y :: b)) = row_of_lcs a b.
Proof. reflexivity. Qed.

Lemma row_of_lcs_nil (b : bytes) :
  row_of_lcs [] b = repeat 0 (S (length b)).
Proof. induction b as [|y b IH]; simpl; [reflexivity | now rewrite IH]. Qed.

Lemma lcs_row_correct (x : N) (a b : bytes) :
  lcs_row x b (row_of_lcs a b) = row_of_lcs (x :: a) b.
Proof.
  induction b as [|y b IH]; [reflexivity|].
  cbn [lcs_row]. rewrite tl_row_of_lcs, IH, !hd_row_of_lcs.
  cbn [row_of_lcs]. rewrite lcs_cons. reflexivity.
Qed.

Lemma lcs_table_correct (a b : bytes) : lcs_table a b = row_of_lcs a b.
Proof.
  unfold lcs_table. induction a as [|x a IH]; cbn [fold_right].
  - now rewrite row_of_lcs_nil.
  - now rewrite IH, lcs_row_correct.
Qed.

Lemma matched_lcs (a b : bytes) : matched a b = lcs a b.
Proof. unfold matched. now rewrite lcs_table_correct, hd_row_of_lcs. Qed.

Lemma ratio_sym (a b : bytes) : ratio a b = ratio b a.
Proof.
  unfold ratio. now rewrite !matched_lcs, lcs_sym, (Nat.add_comm (length a)).
Qed.

Lemma ratio_refl (a : bytes) : ratio a a = 100%Z.
Proof.
  unfold ratio. rewrite matched_lcs, lcs_refl.
  destruct (Z.eqb_spec (Z.of_nat (length a + length a)) 0); [reflexivity|].
  replace (100 * (2 * Z.of_nat (length a)))%Z
    with (100 * Z.of_nat (length a + length a))%Z by lia.
  now apply Z.div_mul.
Qed.

Lemma ratio_bounds (a b : bytes) : (0 <= ratio a b <= 100)%Z.
Proof.
  unfold ratio. rewrite matched_lcs.
  destruct (Z.eqb_spec (Z.of_nat (length a + length b)) 0); [lia|].
  pose proof (lcs_le_l a b) as Ha.
  pose proof (lcs_le_l b a) as Hb. rewrite (lcs_sym b a) in Hb.
  split.
  - apply Z.div_pos; lia.
  - apply Z.div_le_upper_bound; lia.
Qed.

Lemma token_sort_ratio_sym (a b : bytes) :
  token_sort_ratio a b = token_sort_ratio b a.
Proof. apply ratio_sym. Qed.

Lemma token_sort_ratio_refl (a : bytes) : token_sort_ratio a a = 100%Z.
Proof. apply ratio_refl. Qed.

End FuzzFacts.

(** ** The cache is transparent *)

Lemma cache_get_In (k : key) (c : lru) (v : Z) :
  cache_get k c = Some v -> In (k, v) c.
Proof.
  induction c as [|[k' v'] c IH]; simpl; [discriminate|].
  destruct (key_eqb k k') eqn:E.
  - apply key_eqb_eq in E. intros [= ->]. subst. now left.
  - intros H. right. now apply IH.
Qed.

Lemma Forall_firstn_lru (P : key * Z -> Prop) (n : nat) (c : lru) :
  Forall P c -> Forall P (firstn n c).
Proof.
  intros H. revert n. induction H as [|e c He Hc IH]; intros [|n]; simpl;
    constructor; auto.
Qed.

Section LruFacts.
Variables (maxsize : nat) (f : key -> Z).

Let coherent (c : lru) : Prop := Forall (fun e => snd e = f (fst e)) c.

Lemma lru_cache_sound (k : key) (c : lru) :
  coherent c ->
  fst (lru_cache maxsize f k c) = f k /\
  coherent (snd (lru_cache maxsize f k c)).
Proof.
  intros H. unfold lru_cache. destruct (cache_get k c) as [v|] eqn:G; simpl.
  - apply cache_get_In in G.
    assert (Hv : v = f k) by exact (proj1 (Forall_forall _ c) H _ G).
    split; [assumption|]. constructor; [assumption|].
    apply Forall_forall. intros e He. apply filter_In in He.
    exact (proj1 (Forall_forall _ c) H e (proj1 He)).
  - split; [reflexivity|]. constructor; [reflexivity|].
    now apply Forall_firstn_lru.
Qed.

(** The cache never holds more than [maxsize] entries. *)
Lemma lru_cache_bounded (k : key) (c : lru) :
  0 < maxsize -> length c <= maxsize ->
  length (snd (lru_cache maxsize f k c)) <= maxsize.
Proof.
  intros Hm Hc. unfold lru_cache.
  destruct (cache_get k c) as [v|] eqn:G; simpl.
  - apply cache_get_In in G.
    assert (L : length (cache_del k c) < length c).
    { clear Hc. induction c as [|e c IH]; [destruct G|].
      unfold cache_del in *. simpl.
      destruct G as [-> | G].
      - simpl. replace (key_eqb k k) with true
          by (symmetry; now apply key_eqb_eq).
        simpl. pose proof (filter_length_le
          (fun e => negb (key_eqb k (fst e))) c). lia.
      - specialize (IH G).
        destruct (negb (key_eqb k (fst e))); simpl; lia. }
    lia.
  - rewrite length_firstn. lia.
Qed.

End LruFacts.

Section EquivalenceFacts.
Context {U : Unicodedata}.

Lemma cache_ok_nil : cache_ok [].
Proof. constructor. Qed.

Lemma calc_description_equivalence_ratio_run (d1 d2 : str) (c : lru) :
  cache_ok c ->
  exists c',
    calc_description_equivalence_ratio d1 d2 c
    = (Ok (description_equivalence_ratio (d1, d2)), c', [])
    /\ cache_ok c'.
Proof.
  intros H. unfold calc_description_equivalence_ratio.
  destruct (lru_cache_sound 50 description_equivalence_ratio (d1, d2) H)
    as [Hv Hc].
  destruct (lru_cache 50 description_equivalence_ratio (d1, d2) c)
    as [r c'].
  simpl in Hv, Hc. subst r. now exists c'.
Qed.

(** A comparison touches neither source nor sink. *)
Lemma Product_eq_shape (a b : Product) (c : lru) :
  exists r c', Product_eq a b c = (r, c', []).
Proof.
  unfold Product_eq, bind, lower_method.
  destruct (description a), (description b); simpl; eauto.
  unfold calc_description_equivalence_ratio.
  destruct (lru_cache 50 _ _ c) as [r c']. simpl. eauto.
Qed.

Lemma Product_eq_text (a b : Product) (da db : str) (c : lru) :
  description a = VStr da -> description b = VStr db -> cache_ok c ->
  exists c',
    Product_eq a b c = (Ok (spec_equivalent da db), c', []) /\ cache_ok c'.
Proof.
  intros Ha Hb H. unfold Product_eq, bind, lower_method.
  rewrite Ha, Hb. simpl.
  destruct (calc_description_equivalence_ratio_run
              (str_lower da) (str_lower db) H) as (c' & E & Hc).
  rewrite E. simpl. now exists c'.
Qed.

Lemma is_text_description (p : Product) :
  is_text p = true -> exists d, description p = VStr d.
Proof. unfold is_text. destruct (description p); try discriminate; eauto. Qed.

Lemma Product_eq_matches (a b : Product) (c : lru) :
  is_text a = true -> is_text b = true -> cache_ok c ->
  exists c', Product_eq a b c = (Ok (matches a b), c', []) /\ cache_ok c'.
Proof.
  intros Ha Hb H.
  destruct (is_text_description a Ha) as [da Ea].
  destruct (is_text_description b Hb) as [db Eb].
  unfold matches. rewrite Ea, Eb. now apply Product_eq_text.
Qed.

(** Equivalence looks at descriptions only. *)
Lemma matches_description (p q s : Product) :
  description p = description q -> matches p s = matches q s.
Proof. unfold matches. now intros ->. Qed.

End EquivalenceFacts.

(** ** The matching loops *)

Lemma written_app (t1 t2 : trace) : written (t1 ++ t2) = written t1 ++ written t2.
Proof.
  induction t1 as [|ev t1 IH]; [reflexivity|].
  destruct ev; simpl; now rewrite IH.
Qed.

Lemma written_rows (rows : list (list value)) :
  written (map SinkWriterow rows) = rows.
Proof. induction rows as [|r rows IH]; simpl; [reflexivity | now rewrite IH]. Qed.

Lemma NoDup_snoc (x : value) (g : list value) :
  NoDup g -> ~ In x g -> NoDup (g ++ [x]).
Proof.
  intros Hg Hx. induction Hg as [|y g Hy Hg IH]; simpl.
  - constructor; [intros [] | constructor].
  - constructor.
    + rewrite in_app_iff. intros [H | [-> | []]]; [now apply Hy|].
      apply Hx. now left.
    + apply IH. intros H. apply Hx. now right.
Qed.

Section LoopFacts.
Context {U : Unicodedata}.

Lemma for_db2_cons (p s : Product) (rest : list Product)
    (g : list value) (c : lru) :
  for_db2 p (s :: rest) g c =
  match Product_eq p s c with
  | (Ok true, c1, t1) =>
      if py_in (description p) g then
        match for_db2 p rest g c1 with
        | (r, c2, t2) => (r, c2, t1 ++ t2)
        end
      else
        match for_db2 p rest (g ++ [description p]) c1 with
        | (r, c2, t2) =>
            (r, c2, t1 ++ SinkWriterow [description p; price s] :: t2)
        end
  | (Ok false, c1, t1) =>
      match for_db2 p rest g c1 with
      | (r, c2, t2) => (r, c2, t1 ++ t2)
      end
  | (Raise e, c1, t1) => (Raise e, c1, t1)
  end.
Proof.
  cbn [for_db2]. unfold bind, emit.
  destruct (Product_eq p s c) as [[[[|]|e] c1] t1]; try reflexivity.
  destruct (py_in (description p) g); [reflexivity|].
  destruct (for_db2 p rest (g ++ [description p]) c1) as [[r c2] t2].
  reflexivity.
Qed.

Lemma for_db1_cons (p : Product) (rest l2 : list Product)
    (g : list value) (c : lru) :
  for_db1 (p :: rest) l2 g c =
  match for_db2 p l2 g c with
  | (Ok g1, c1, t1) =>
      match for_db1 rest l2 g1 c1 with
      | (r, c2, t2) => (r, c2, t1 ++ t2)
      end
  | (Raise e, c1, t1) => (Raise e, c1, t1)
  end.
Proof. reflexivity. Qed.

(** One pass over the second database, whatever the records and the
    cache hold: it appends at most one row, for a description that the
    guard does not hold yet, and the guard grows by that description. *)
Lemma for_db2_shape (p : Product) (l : list Product) (g : list value)
    (c : lru) :
  exists r c' rows,
    for_db2 p l g c = (r, c', map SinkWriterow rows)
    /\ (forall g', r = Ok g' -> g' = g ++ map row_description rows)
    /\ (rows = [] \/
        (py_in (description p) g = false /\
         exists s, In s l /\ rows = [[description p; price s]])).
Proof.
  revert g c. induction l as [|s rest IH]; intros g c.
  - exists (Ok g), c, []. simpl. repeat split; auto.
    intros g' [= <-]. now rewrite app_nil_r.
  - rewrite for_db2_cons.
    destruct (Product_eq_shape p s c) as (r0 & c1 & E). rewrite E.
    destruct r0 as [[|]|e].
    + destruct (py_in (description p) g) eqn:Hin.
      * destruct (IH g c1) as (r & c' & rows & E' & Hg & Hrows).
        rewrite E'. exists r, c', rows. repeat split; auto.
        destruct Hrows as [-> | (Hf & _)]; [now left | congruence].
      * destruct (IH (g ++ [description p]) c1)
          as (r & c' & rows & E' & Hg & Hrows).
        rewrite E'.
        assert (rows = []) as ->.
        { destruct Hrows as [-> | (Hf & _)]; [reflexivity|].
          apply py_in_not_In in Hf. exfalso. apply Hf.
          apply in_app_iff. right. now left. }
        exists r, c', [[description p; price s]]. simpl. repeat split.
        -- intros g' Hr. rewrite (Hg g' Hr). simpl. now rewrite app_nil_r.
        -- right. split; [reflexivity|]. exists s. split; [now left | reflexivity].
    + destruct (IH g c1) as (r & c' & rows & E' & Hg & Hrows).
      rewrite E'. exists r, c', rows. repeat split; auto.
      destruct Hrows as [-> | (Hf & s' & Hs' & ->)]; [now left|].
      right. split; [assumption|]. exists s'. split; [now right | reflexivity].
    + exists (Raise e), c1, []. simpl. repeat split; auto. discriminate.
Qed.

(** The whole matching, whatever the records and the cache hold: the
    guard is the list of the descriptions written so far. *)
Lemma for_db1_shape (l1 l2 : list Product) (g : list value) (c : lru) :
  exists r c' rows,
    for_db1 l1 l2 g c = (r, c', map SinkWriterow rows)
    /\ (forall g', r = Ok g' -> g' = g ++ map row_description rows)
    /\ (NoDup g -> NoDup (g ++ map row_description rows)).
Proof.
  revert g c. induction l1 as [|p rest IH]; intros g c.
  - exists (Ok g), c, []. simpl. repeat split.
    + intros g' [= <-]. now rewrite app_nil_r.
    + now rewrite app_nil_r.
  - rewrite for_db1_cons.
    destruct (for_db2_shape p l2 g c) as (r1 & c1 & rows1 & E1 & Hg1 & Hr1).
    rewrite E1.
    assert (N1 : NoDup g -> NoDup (g ++ map row_description rows1)).
    { intros Hg. destruct Hr1 as [-> | (Hf & s & _ & ->)]; simpl.
      - now rewrite app_nil_r.
      - apply NoDup_snoc; [assumption | now apply py_in_not_In]. }
    destruct r1 as [g1|e].
    + specialize (Hg1 g1 eq_refl). subst g1.
      destruct (IH (g ++ map row_description rows1) c1)
        as (r & c' & rows2 & E2 & Hg2 & N2).
      rewrite E2. exists r, c', (rows1 ++ rows2).
      rewrite !map_app, app_assoc. repeat split; auto.
    + exists (Raise e), c1, rows1. repeat split; auto; discriminate.
Qed.

End LoopFacts.

(** ** Reading the sources *)

Lemma sink_events_source_rows (id : db_id) (rows : list (list value)) :
  sink_events (map (SourceRow id) rows) = [].
Proof. induction rows as [|r rows IH]; simpl; [reflexivity | exact IH]. Qed.

Lemma sink_events_app (t1 t2 : trace) :
  sink_events (t1 ++ t2) = sink_events t1 ++ sink_events t2.
Proof. apply filter_app. Qed.

Lemma sink_events_rows (rows : list (list value)) :
  sink_events (map SinkWriterow rows) = map SinkWriterow rows.
Proof. induction rows as [|r rows IH]; simpl; [reflexivity | now rewrite IH]. Qed.

Lemma written_source_rows (id : db_id) (rows : list (list value)) :
  written (map (SourceRow id) rows) = [].
Proof. induction rows as [|r rows IH]; simpl; [reflexivity | exact IH]. Qed.

(** Reading leaves the cache alone and touches the source only. *)
Lemma iter_products_shape (id : db_id) (src : list read_step) (c : lru) :
  exists r rows, iter_products id src c = (r, c, map (SourceRow id) rows).
Proof.
  induction src as [|[row|e] rest IH]; cbn [iter_products].
  - now exists (Ok []), [].
  - destruct IH as (r & rows & E).
    unfold bind, emit, getitem.
    destruct row as [|d [|pr tl]]; simpl.
    + now exists (Raise IndexError), [[]].
    + now exists (Raise IndexError), [[d]].
    + rewrite E. destruct r as [ps|e]; simpl.
      * exists (Ok ({| description := d; price := pr |} :: ps)),
               ((d :: pr :: tl) :: rows).
        now rewrite app_nil_r.
      * now exists (Raise e), ((d :: pr :: tl) :: rows).
  - now exists (Raise e), [].
Qed.

Lemma _iter_products_from_db_shape (id : db_id) (db : option BaseReadDB)
    (c : lru) :
  exists r rows,
    _iter_products_from_db id db c = (r, c, map (SourceRow id) rows).
Proof.
  destruct db as [src|]; simpl.
  - apply iter_products_shape.
  - now exists (Raise AttributeError), [].
Qed.

Lemma iter_products_source_of (id : db_id) (l : list Product) (c : lru) :
  iter_products id (source_of (map row_of l)) c
  = (Ok l, c, map (SourceRow id) (map row_of l)).
Proof.
  induction l as [|[d pr] l IH]; [reflexivity|].
  unfold source_of in *. cbn [map iter_products row_of description price].
  unfold bind, emit, getitem. simpl. rewrite IH. simpl.
  now rewrite app_nil_r.
Qed.

Section RunFacts.
Context {U : Unicodedata}.

(** The three ways a run goes: the first source fails, the second source
    fails, or both are materialised and the sink is opened, written to and
    finalised. *)
Lemma run_cases (self : Migrate) (c : lru) :
  (exists e rows1,
      _iter_products_from_db Db1 (db1 self) c
      = (Raise e, c, map (SourceRow Db1) rows1)
      /\ run self c = (Raise e, c, map (SourceRow Db1) rows1))
  \/ (exists l1 rows1 e rows2,
      _iter_products_from_db Db1 (db1 self) c
      = (Ok l1, c, map (SourceRow Db1) rows1)
      /\ _iter_products_from_db Db2 (db2 self) c
         = (Raise e, c, map (SourceRow Db2) rows2)
      /\ run self c
         = (Raise e, c,
            map (SourceRow Db1) rows1 ++ map (SourceRow Db2) rows2))
  \/ (exists l1 rows1 l2 rows2 r c' rows,
      _iter_products_from_db Db1 (db1 self) c
      = (Ok l1, c, map (SourceRow Db1) rows1)
      /\ _iter_products_from_db Db2 (db2 self) c
         = (Ok l2, c, map (SourceRow Db2) rows2)
      /\ for_db1 l1 l2 [] c = (r, c', map SinkWriterow rows)
      /\ run self c
         = (unit_outcome r, c',
            map (SourceRow Db1) rows1 ++ map (SourceRow Db2) rows2
              ++ SinkEnter :: map SinkWriterow rows ++ [SinkExit])).
Proof.
  unfold run.
  destruct (_iter_products_from_db_shape Db1 (db1 self) c)
    as (r1 & rows1 & E1).
  destruct (_iter_products_from_db_shape Db2 (db2 self) c)
    as (r2 & rows2 & E2).
  destruct r1 as [l1|e1].
  - destruct r2 as [l2|e2].
    + right. right.
      destruct (for_db1_shape l1 l2 [] c) as (r & c' & rows & E & _ & _).
      exists l1, rows1, l2, rows2, r, c', rows.
      repeat split; try assumption.
      unfold bind at 1. rewrite E1. unfold bind at 1. rewrite E2.
      unfold with_output, finally, bind, emit, ret. rewrite E.
      destruct r; simpl; now rewrite ?app_nil_r.
    + right. left. exists l1, rows1, e2, rows2.
      repeat split; try assumption.
      unfold bind at 1. rewrite E1. unfold bind at 1. now rewrite E2.
  - left. exists e1, rows1. split; [assumption|].
    unfold bind at 1. now rewrite E1.
Qed.

End RunFacts.

(** ** The run on text records computes the first-match reconciliation *)

Section Refinement.
Context {U : Unicodedata}.

Lemma first_match_cons (p s : Product) (rest : list Product) :
  first_match p (s :: rest)
  = if matches p s then Some s else first_match p rest.
Proof. reflexivity. Qed.

Lemma first_match_app (p s : Product) (pre post : list Product) :
  Forall (fun x => matches p x = false) pre ->
  matches p s = true ->
  first_match p (pre ++ s :: post) = Some s.
Proof.
  intros Hpre Hs. induction Hpre as [|x pre Hx _ IH]; cbn [app].
  - now rewrite first_match_cons, Hs.
  - now rewrite first_match_cons, Hx.
Qed.

Lemma first_match_none (p : Product) (l : list Product) :
  Forall (fun x => matches p x = false) l -> first_match p l = None.
Proof.
  intros H. induction H as [|x l Hx _ IH]; [reflexivity|].
  now rewrite first_match_cons, Hx.
Qed.

Lemma pass_rows_guarded (p : Product) (l : list Product) (g : list value) :
  pass_rows p l (g ++ [description p]) = [].
Proof.
  unfold pass_rows.
  replace (py_in (description p) (g ++ [description p])) with true;
    [reflexivity|].
  symmetry. apply py_in_In, in_app_iff. right. now left.
Qed.

Lemma for_db2_text (p : Product) (l : list Product) (g : list value)
    (c : lru) :
  is_text p = true -> forallb is_text l = true -> cache_ok c ->
  exists c',
    for_db2 p l g c
    = (Ok (g ++ map row_description (pass_rows p l g)), c',
       map SinkWriterow (pass_rows p l g))
    /\ cache_ok c'.
Proof.
  intros Hp. revert g c. induction l as [|s rest IH]; intros g c Hl Hc.
  - exists c. split; [|assumption]. unfold pass_rows. simpl.
    destruct (py_in (description p) g); simpl; now rewrite app_nil_r.
  - simpl in Hl. apply andb_prop in Hl. destruct Hl as [Hs Hrest].
    rewrite for_db2_cons.
    destruct (Product_eq_matches p s Hp Hs Hc) as (c1 & E & Hc1).
    rewrite E. unfold pass_rows. rewrite first_match_cons.
    destruct (matches p s) eqn:Hm.
    + destruct (py_in (description p) g) eqn:Hin.
      * destruct (IH g c1 Hrest Hc1) as (c' & E' & Hc').
        rewrite E'. unfold pass_rows. rewrite Hin. now exists c'.
      * destruct (IH (g ++ [description p]) c1 Hrest Hc1)
          as (c' & E' & Hc').
        rewrite E', pass_rows_guarded. simpl. rewrite app_nil_r.
        now exists c'.
    + destruct (IH g c1 Hrest Hc1) as (c' & E' & Hc').
      rewrite E'. unfold pass_rows. now exists c'.
Qed.

Lemma spec_reconcile_cons (p : Product) (rest l2 : list Product)
    (g : list value) :
  spec_reconcile (p :: rest) l2 g
  = pass_rows p l2 g
      ++ spec_reconcile rest l2 (g ++ map row_description (pass_rows p l2 g)).
Proof.
  cbn [spec_reconcile]. unfold pass_rows.
  destruct (first_match p l2) as [s|];
    destruct (py_in (description p) g); simpl;
    now rewrite ?app_nil_r.
Qed.

Lemma for_db1_text (l1 l2 : list Product) (g : list value) (c : lru) :
  forallb is_text l1 = true -> forallb is_text l2 = true -> cache_ok c ->
  exists c',
    for_db1 l1 l2 g c
    = (Ok (g ++ map row_description (spec_reconcile l1 l2 g)), c',
       map SinkWriterow (spec_reconcile l1 l2 g))
    /\ cache_ok c'.
Proof.
  revert g c. induction l1 as [|p rest IH]; intros g c H1 H2 Hc.
  - exists c. simpl. now rewrite app_nil_r.
  - simpl in H1. apply andb_prop in H1. destruct H1 as [Hp Hrest].
    rewrite for_db1_cons.
    destruct (for_db2_text p l2 g Hp H2 Hc) as (c1 & E1 & Hc1).
    rewrite E1.
    destruct (IH (g ++ map row_description (pass_rows p l2 g)) c1
                 Hrest H2 Hc1) as (c' & E' & Hc').
    rewrite E', spec_reconcile_cons, !map_app, app_assoc.
    now exists c'.
Qed.

(** The run on two materialised catalogues of text records. *)
Lemma run_text (primary secondary : list Product) (c : lru) :
  forallb is_text primary = true -> forallb is_text secondary = true ->
  cache_ok c ->
  exists c',
    run (migrate_of primary secondary) c
    = (Ok tt, c',
       map (SourceRow Db1) (map row_of primary)
         ++ map (SourceRow Db2) (map row_of secondary)
         ++ SinkEnter
            :: map SinkWriterow (spec_reconcile primary secondary [])
            ++ [SinkExit])
    /\ cache_ok c'.
Proof.
  intros H1 H2 Hc.
  destruct (for_db1_text primary secondary [] H1 H2 Hc) as (c' & E & Hc').
  exists c'. split; [|assumption].
  unfold run, migrate_of, set_db1, set_db2, Migrate_init. simpl.
  unfold bind at 1. rewrite iter_products_source_of.
  unfold bind at 1. rewrite iter_products_source_of.
  unfold with_output, finally, bind, emit, ret. rewrite E. simpl.
  now rewrite app_nil_r.
Qed.

Lemma written_run_text (primary secondary : list Product) (c : lru) :
  forallb is_text primary = true -> forallb is_text secondary = true ->
  cache_ok c ->
  written (trace_of (run (migrate_of primary secondary) c))
  = spec_reconcile primary secondary [].
Proof.
  intros H1 H2 Hc. destruct (run_text primary secondary H1 H2 Hc) as (c' & E & _).
  rewrite E. unfold trace_of. simpl.
  rewrite !written_app, !written_source_rows. simpl.
  now rewrite written_app, written_rows, app_nil_r.
Qed.

(** *** Facts on the first-match reconciliation *)

Lemma spec_reconcile_app (l l' l2 : list Product) (g : list value) :
  spec_reconcile (l ++ l') l2 g
  = spec_reconcile l l2 g
      ++ spec_reconcile l' l2
           (g ++ map row_description (spec_reconcile l l2 g)).
Proof.
  revert g. induction l as [|p l IH]; intros g.
  - simpl. now rewrite app_nil_r.
  - rewrite <- app_comm_cons, !spec_reconcile_cons, IH.
    now rewrite map_app, !app_assoc.
Qed.

Lemma pass_rows_origin (p : Product) (l2 : list Product) (g : list value)
    (row : list value) :
  In row (pass_rows p l2 g) ->
  ~ In (description p) g /\
  exists s, In s l2 /\ matches p s = true /\ row = [description p; price s].
Proof.
  unfold pass_rows. destruct (py_in (description p) g) eqn:Hin; [intros []|].
  unfold first_match. destruct (find (matches p) l2) as [s|] eqn:F;
    [|intros []].
  intros [<- | []]. apply find_some in F. destruct F as [Hs Hm].
  split; [now apply py_in_not_In | now exists s].
Qed.

(** Every row of the reconciliation joins a primary record with a
    secondary record that matches it, and its description is new. *)
Lemma spec_reconcile_origin (l1 l2 : list Product) (g : list value)
    (row : list value) :
  In row (spec_reconcile l1 l2 g) ->
  ~ In (row_description row) g /\
  exists p s, In p l1 /\ In s l2 /\ matches p s = true /\
              row = [description p; price s].
Proof.
  revert g. induction l1 as [|p rest IH]; intros g; [intros []|].
  rewrite spec_reconcile_cons, in_app_iff. intros [H | H].
  - apply pass_rows_origin in H. destruct H as (Hg & s & Hs & Hm & ->).
    split; [exact Hg|]. exists p, s. repeat split; auto. now left.
  - apply IH in H. destruct H as (Hg & q & s & Hq & Hs & Hm & ->).
    split.
    + intros Hin. apply Hg, in_app_iff. now left.
    + exists q, s. repeat split; auto. now right.
Qed.

End Refinement.

(** ** Basic Latin text *)

Lemma ascii_lower_is_ascii (s : str) :
  forallb is_ascii s = true -> forallb is_ascii (map ascii_lower s) = true.
Proof.
  induction s as [|ch s IH]; simpl; [reflexivity|].
  intros H. apply andb_prop in H. destruct H as [Hc Hs].
  rewrite (IH Hs), andb_true_r. unfold ascii_lower, is_ascii in *.
  apply N.ltb_lt in Hc.
  destruct ((65 <=? ch) && (ch <=? 90))%N eqn:E; apply N.ltb_lt; [|assumption].
  apply andb_prop in E. destruct E as [_ E]. apply N.leb_le in E. lia.
Qed.

Lemma encode_ascii_ignore_ascii (s : str) :
  forallb is_ascii s = true -> encode_ascii_ignore s = s.
Proof.
  unfold encode_ascii_ignore.
  induction s as [|ch s IH]; simpl; [reflexivity|].
  intros H. apply andb_prop in H. destruct H as [Hc Hs].
  now rewrite Hc, (IH Hs).
Qed.

Lemma encode_ascii_ignore_is_ascii (s : str) :
  forallb is_ascii (encode_ascii_ignore s) = true.
Proof.
  apply forallb_forall. intros ch H. apply filter_In in H. tauto.
Qed.

Lemma Latin1_nfkd_ascii (s : str) :
  forallb is_ascii s = true -> Latin1.nfkd s = s.
Proof.
  induction s as [|ch s IH]; [reflexivity|].
  cbn [forallb]. intros H. apply andb_prop in H. destruct H as [Hc Hs].
  unfold Latin1.nfkd in *. cbn [flat_map]. rewrite (IH Hs).
  unfold Latin1.decompose. now rewrite Hc.
Qed.

Lemma Latin1_lower_ascii (s : str) :
  forallb is_ascii s = true -> Latin1.lower s = map ascii_lower s.
Proof.
  induction s as [|ch s IH]; [reflexivity|].
  cbn [forallb]. intros H. apply andb_prop in H. destruct H as [Hc Hs].
  unfold Latin1.lower in *. cbn [map]. rewrite (IH Hs).
  unfold Latin1.lower_char. now rewrite Hc.
Qed.

Lemma Latin1_basic_latin_stable : basic_latin_stable Latin1.ucd.
Proof.
  split; [exact Latin1_nfkd_ascii | exact Latin1_lower_ascii].
Qed.

Section BasicLatin.
Context {U : Unicodedata}.
Hypothesis stable : basic_latin_stable U.

Lemma get_normalize_description_ascii (s : str) :
  forallb is_ascii s = true -> get_normalize_description s = s.
Proof.
  intros H. unfold get_normalize_description.
  rewrite (proj1 stable s H). now apply encode_ascii_ignore_ascii.
Qed.

(** On Basic Latin descriptions the rule compares the token-sorted,
    lower-cased texts themselves. *)
Lemma spec_equivalent_ascii (a b : str) :
  forallb is_ascii a = true -> forallb is_ascii b = true ->
  spec_equivalent a b
  = (90 <=? score (map ascii_lower a) (map ascii_lower b))%Z.
Proof.
  intros Ha Hb. unfold spec_equivalent.
  rewrite (proj2 stable a Ha), (proj2 stable b Hb).
  rewrite !get_normalize_description_ascii by now apply ascii_lower_is_ascii.
  reflexivity.
Qed.

End BasicLatin.

(** * The reconciliation contract *)

Section Contract.
Context {U : Unicodedata}.

(** C2 - Record equivalence rule.  For records [a] and [b] whose
    descriptions are the texts [da] and [db], and whatever the ratio
    cache remembers, [a == b] returns [True] exactly when the score of
    the normalised, lower-cased descriptions is at least 90, and [False]
    exactly when it is below; records with the same descriptions and any
    other prices compare alike. *)
Theorem equivalence_rule (a b : Product) (da db : str) (c : lru) :
  cache_ok c ->
  description a = VStr da ->
  description b = VStr db ->
  (outcome (Product_eq a b c) = Ok true <->
   (90 <= score (get_normalize_description (str_lower da))
                (get_normalize_description (str_lower db)))%Z)
  /\ (outcome (Product_eq a b c) = Ok false <->
      (score (get_normalize_description (str_lower da))
             (get_normalize_description (str_lower db)) < 90)%Z)
  /\ (forall (a' b' : Product) (c' : lru),
         cache_ok c' ->
         description a' = description a ->
         description b' = description b ->
         outcome (Product_eq a' b' c') = outcome (Product_eq a b c)).
Proof.
  intros Hc Ha Hb.
  destruct (Product_eq_text a b Ha Hb Hc) as (c1 & E & _).
  rewrite E. unfold outcome. simpl. unfold spec_equivalent.
  repeat split.
  - intros [= H]. now apply Z.leb_le.
  - intros H. f_equal. now apply Z.leb_le.
  - intros [= H]. now apply Z.leb_gt.
  - intros H. f_equal. now apply Z.leb_gt.
  - intros a' b' c' Hc' Ha' Hb'. rewrite Ha in Ha'. rewrite Hb in Hb'.
    destruct (Product_eq_text a' b' Ha' Hb' Hc') as (c2 & E' & _).
    now rewrite E'.
Qed.

(** C3 - At most one row per description.  Whatever the two sources
    yield and whatever the cache holds, no two rows that a run appends
    to the sink carry the same description. *)
Theorem one_row_per_description (self : Migrate) (c : lru) :
  NoDup (map row_description (written (trace_of (run self c)))).
Proof.
  destruct (run_cases self c)
    as [(e & rows1 & _ & E)
       |[(l1 & rows1 & e & rows2 & _ & _ & E)
        |(l1 & rows1 & l2 & rows2 & r & c' & rows & _ & _ & F & E)]];
    rewrite E; unfold trace_of; simpl.
  - rewrite written_source_rows. constructor.
  - rewrite written_app, !written_source_rows. constructor.
  - rewrite !written_app, !written_source_rows. simpl.
    rewrite written_app, written_rows. simpl. rewrite app_nil_r.
    destruct (for_db1_shape l1 l2 [] c) as (r' & c'' & rows' & F' & _ & N).
    rewrite F in F'. injection F' as _ _ Hrows.
    assert (rows = rows') as ->.
    { clear - Hrows. revert rows' Hrows.
      induction rows as [|x rows IH]; intros [|y rows']; simpl;
        try discriminate; [reflexivity|].
      intros [= -> H]. f_equal. now apply IH. }
    apply (N (NoDup_nil _)).
Qed.

(** C5 - Similarity scoring is symmetric.  The score of two normalised
    descriptions does not depend on their order, and neither does the
    value the memoised ratio returns, whatever the two caches
    remember. *)
Theorem similarity_symmetric (d1 d2 : str) (c1 c2 : lru) :
  cache_ok c1 ->
  cache_ok c2 ->
  outcome (calc_description_equivalence_ratio d1 d2 c1)
  = outcome (calc_description_equivalence_ratio d2 d1 c2)
  /\ forall a b : bytes, score a b = score b a.
Proof.
  intros H1 H2. split.
  - destruct (calc_description_equivalence_ratio_run d1 d2 H1)
      as (c1' & E1 & _).
    destruct (calc_description_equivalence_ratio_run d2 d1 H2)
      as (c2' & E2 & _).
    rewrite E1, E2. unfold outcome, description_equivalence_ratio. simpl.
    f_equal. apply FuzzFacts.token_sort_ratio_sym.
  - intros a b. apply FuzzFacts.token_sort_ratio_sym.
Qed.

(** C6 - Identical descriptions are equivalent.  Two records with the
    same description text compare equal whatever their prices: the
    score of a text with itself is 100. *)
Theorem same_description_equivalent (d : str) (p1 p2 : value) (c : lru) :
  cache_ok c ->
  outcome (Product_eq {| description := VStr d; price := p1 |}
                      {| description := VStr d; price := p2 |} c)
  = Ok true
  /\ score (get_normalize_description (str_lower d))
           (get_normalize_description (str_lower d)) = 100%Z.
Proof.
  intros Hc.
  assert (S100 : score (get_normalize_description (str_lower d))
                       (get_normalize_description (str_lower d)) = 100%Z)
    by apply FuzzFacts.token_sort_ratio_refl.
  split; [|exact S100].
  destruct (@Product_eq_text U
              {| description := VStr d; price := p1 |}
              {| description := VStr d; price := p2 |} d d c
              eq_refl eq_refl Hc) as (c' & E & _).
  rewrite E. unfold outcome, spec_equivalent. simpl. now rewrite S100.
Qed.

End Contract.

Section Matching.
Context {U : Unicodedata}.

(** C1 - First match wins.  Take catalogues of text records, a primary
    record [p] whose description the run has not written when it reaches
    [p], and a secondary sequence in which [s] is the first record that
    matches [p].  The run writes, right after the rows of the records
    before [p], the row of [p]'s description and [s]'s price, and no
    other row for that description; the pass of [p] over the secondary
    sequence writes that single row and adds that single description to
    the guard, whatever follows [s]: later matches, better or not, write
    nothing and leave the guard alone. *)
Theorem first_match_wins (c : lru) (before after pre post : list Product)
    (p s : Product) :
  cache_ok c ->
  forallb is_text (before ++ p :: after) = true ->
  forallb is_text (pre ++ s :: post) = true ->
  Forall (fun x => matches p x = false) pre ->
  matches p s = true ->
  ~ In (description p)
       (map row_description
          (written (trace_of
             (run (migrate_of before (pre ++ s :: post)) c)))) ->
  (exists rest,
      written (trace_of
        (run (migrate_of (before ++ p :: after) (pre ++ s :: post)) c))
      = written (trace_of (run (migrate_of before (pre ++ s :: post)) c))
          ++ [description p; price s] :: rest
      /\ ~ In (description p) (map row_description rest))
  /\ (forall (g : list value) (c0 : lru),
         cache_ok c0 -> ~ In (description p) g ->
         outcome (for_db2 p (pre ++ s :: post) g c0)
         = Ok (g ++ [description p])
         /\ trace_of (for_db2 p (pre ++ s :: post) g c0)
            = [SinkWriterow [description p; price s]]).
Proof.
  intros Hc H1 H2 Hpre Hs Hnew.
  pose proof H1 as H1'. rewrite forallb_app in H1'.
  apply andb_prop in H1'. destruct H1' as [Hb Hpa].
  assert (Hp : is_text p = true).
  { simpl in Hpa. now apply andb_prop in Hpa. }
  assert (Hpass : forall g, ~ In (description p) g ->
            pass_rows p (pre ++ s :: post) g = [[description p; price s]]).
  { intros g Hg. unfold pass_rows.
    apply py_in_not_In in Hg. rewrite Hg.
    now rewrite (@first_match_app U p s pre post Hpre Hs). }
  split.
  - rewrite (written_run_text _ _ H1 H2 Hc).
    rewrite (written_run_text _ _ Hb H2 Hc) in *.
    rewrite spec_reconcile_app. cbn [app].
    rewrite spec_reconcile_cons, (Hpass _ Hnew). cbn [app map].
    eexists. split; [reflexivity|].
    intros Hin. apply in_map_iff in Hin. destruct Hin as (row & Hd & Hrow).
    apply spec_reconcile_origin in Hrow. destruct Hrow as [Hfresh _].
    apply Hfresh. rewrite Hd. apply in_app_iff. right. now left.
  - intros g c0 Hc0 Hg.
    destruct (for_db2_text p (pre ++ s :: post) g Hp H2 Hc0)
      as (c' & E & _).
    rewrite E, (Hpass g Hg). unfold outcome, trace_of. simpl. now split.
Qed.

(** C8 - Unmatched records are dropped in silence.  On catalogues of
    text records the run returns normally; a primary record that no
    secondary record matches has no row in the output; and when no pair
    matches at all the sink is opened and finalised with nothing
    written. *)
Theorem unmatched_silently_dropped (c : lru)
    (primary secondary : list Product) :
  cache_ok c ->
  forallb is_text primary = true ->
  forallb is_text secondary = true ->
  outcome (run (migrate_of primary secondary) c) = Ok tt
  /\ (forall p,
         In p primary ->
         Forall (fun s => matches p s = false) secondary ->
         ~ In (description p)
              (map row_description
                 (written (trace_of
                    (run (migrate_of primary secondary) c)))))
  /\ ((forall p, In p primary ->
                 Forall (fun s => matches p s = false) secondary) ->
      written (trace_of (run (migrate_of primary secondary) c)) = []
      /\ sink_events (trace_of (run (migrate_of primary secondary) c))
         = [SinkEnter; SinkExit]).
Proof.
  intros Hc H1 H2.
  assert (Hnone : forall p row,
             In row (spec_reconcile primary secondary []) ->
             row_description row = description p ->
             Forall (fun s => matches p s = false) secondary -> False).
  { intros p row Hrow Hd Hno.
    apply spec_reconcile_origin in Hrow.
    destruct Hrow as (_ & q & s & _ & Hs & Hm & ->).
    simpl in Hd.
    rewrite (matches_description q p s Hd) in Hm.
    pose proof (proj1 (Forall_forall _ _) Hno s Hs) as Hf.
    simpl in Hf. congruence. }
  rewrite (written_run_text _ _ H1 H2 Hc).
  destruct (run_text primary secondary H1 H2 Hc) as (c' & E & _).
  rewrite E. unfold outcome, trace_of. simpl.
  split; [reflexivity|]. split.
  - intros p _ Hno Hin. apply in_map_iff in Hin.
    destruct Hin as (row & Hd & Hrow). exact (Hnone p row Hrow Hd Hno).
  - intros Hall.
    assert (Hnil : spec_reconcile primary secondary [] = []).
    { destruct (spec_reconcile primary secondary []) as [|row rows] eqn:R;
        [reflexivity|].
      exfalso.
      assert (Hrow : In row (row :: rows)) by now left.
      pose proof Hrow as Hrow'. rewrite <- R in Hrow'.
      destruct (spec_reconcile_origin _ _ _ _ Hrow')
        as (_ & q & s & Hq & _ & _ & Hr).
      apply (Hnone q row Hrow); [now rewrite Hr | now apply Hall]. }
    rewrite Hnil. split; [reflexivity|].
    rewrite !sink_events_app, !sink_events_source_rows. reflexivity.
Qed.

(** C10 - Read-failure atomicity.  When reading either source raises,
    the run raises the same exception and performs no operation on the
    sink.  In every run the reads of both sources come before the first
    operation on the sink, and the sink is operated on only when both
    sources were materialised. *)
Theorem read_failure_atomicity (self : Migrate) (c : lru) :
  (forall e,
      reading_fails self c e ->
      outcome (run self c) = Raise e
      /\ sink_events (trace_of (run self c)) = [])
  /\ exists reads sinks,
      trace_of (run self c) = reads ++ sinks
      /\ sink_events reads = []
      /\ sink_events sinks = sinks
      /\ (sinks <> [] ->
          exists l1 l2,
            outcome (_iter_products_from_db Db1 (db1 self) c) = Ok l1
            /\ outcome (_iter_products_from_db Db2 (db2 self) c) = Ok l2
            /\ reads
               = trace_of (_iter_products_from_db Db1 (db1 self) c)
                   ++ trace_of (_iter_products_from_db Db2 (db2 self) c)
            /\ hd_error sinks = Some SinkEnter).
Proof.
  unfold reading_fails.
  destruct (run_cases self c)
    as [(e & rows1 & E1 & E)
       |[(l1 & rows1 & e & rows2 & E1 & E2 & E)
        |(l1 & rows1 & l2 & rows2 & r & c' & rows & E1 & E2 & F & E)]];
    rewrite E; unfold outcome, trace_of; simpl.
  - rewrite E1. simpl. split.
    + intros e' [[= ->] | [[l1 [=]] _]].
      split; [reflexivity | apply sink_events_source_rows].
    + exists (map (SourceRow Db1) rows1), [].
      rewrite app_nil_r, sink_events_source_rows.
      repeat split; try reflexivity. intros H. now elim H.
  - rewrite E1, E2. simpl. split.
    + intros e' [[=] | [_ [= ->]]].
      split; [reflexivity|].
      now rewrite sink_events_app, !sink_events_source_rows.
    + exists (map (SourceRow Db1) rows1 ++ map (SourceRow Db2) rows2), [].
      rewrite app_nil_r, sink_events_app, !sink_events_source_rows.
      repeat split; try reflexivity. intros H. now elim H.
  - rewrite E1, E2. simpl. split.
    + intros e' [[=] | [_ [=]]].
    + exists (map (SourceRow Db1) rows1 ++ map (SourceRow Db2) rows2),
             (SinkEnter :: map SinkWriterow rows ++ [SinkExit]).
      rewrite sink_events_app, !sink_events_source_rows.
      repeat split.
      * now rewrite <- app_assoc.
      * simpl. now rewrite sink_events_app, sink_events_rows.
      * intros _. exists l1, l2. repeat split; reflexivity.
Qed.

End Matching.

Section BasicLatinContract.
Context {U : Unicodedata}.

(** C4, as amended - Normaliser contract.  For every text the normaliser
    returns the NFKD decomposition of the text with every character
    outside ASCII removed, so its result holds ASCII characters only; it
    does not fold case: Basic Latin text comes back unchanged, upper and
    lower case alike.  The lower-casing is done by the equivalence rule
    before it calls the normaliser. *)
Theorem normalizer_contract (s : str) :
  basic_latin_stable U ->
  get_normalize_description s = encode_ascii_ignore (normalize_NFKD s)
  /\ forallb is_ascii (get_normalize_description s) = true
  /\ (forallb is_ascii s = true -> get_normalize_description s = s).
Proof.
  intros stable. split; [reflexivity|]. split.
  - apply encode_ascii_ignore_is_ascii.
  - now apply get_normalize_description_ascii.
Qed.

(** C7 - Equivalence is not transitive.  There are records [A], [B] and
    [C] with [A == B] and [B == C] but not [A == C], whatever the cache
    remembers. *)
Theorem equivalence_not_transitive :
  basic_latin_stable U ->
  exists A B C : Product,
    forall c, cache_ok c ->
      outcome (Product_eq A B c) = Ok true
      /\ outcome (Product_eq B C c) = Ok true
      /\ outcome (Product_eq A C c) = Ok false.
Proof.
  intros stable.
  exists (Sample.product Sample.tenA 1),
         (Sample.product Sample.nineA_B 2),
         (Sample.product Sample.eightA_BB 3).
  intros c Hc.
  assert (R : forall (d1 d2 : str) (p1 p2 : Z),
             forallb is_ascii d1 = true -> forallb is_ascii d2 = true ->
             outcome (Product_eq (Sample.product d1 p1)
                                 (Sample.product d2 p2) c)
             = Ok (90 <=? score (map ascii_lower d1)
                                (map ascii_lower d2))%Z).
  { intros d1 d2 p1 p2 H1 H2.
    destruct (@Product_eq_text U (Sample.product d1 p1)
                (Sample.product d2 p2) d1 d2 c eq_refl eq_refl Hc)
      as (c' & E & _).
    rewrite E. unfold outcome. simpl.
    now rewrite (spec_equivalent_ascii stable d1 d2 H1 H2). }
  rewrite !R by reflexivity. repeat split; vm_compute; reflexivity.
Qed.

(** C9 - A secondary record is never consumed.  When the first record
    of the secondary sequence that matches [p1] is [s], and the first
    that matches [p2], a record of another description, is the same
    [s], the run writes a row for each of the two, both with the price
    of [s]: matching [p1] neither removes nor marks [s].  Such
    catalogues exist. *)
Theorem secondary_record_reused :
  (forall (c : lru) (p1 p2 s : Product) (secondary : list Product),
      cache_ok c ->
      is_text p1 = true -> is_text p2 = true ->
      forallb is_text secondary = true ->
      description p1 <> description p2 ->
      first_match p1 secondary = Some s ->
      first_match p2 secondary = Some s ->
      written (trace_of (run (migrate_of [p1; p2] secondary) c))
      = [[description p1; price s]; [description p2; price s]])
  /\ (basic_latin_stable U ->
      exists (p1 p2 s : Product) (secondary : list Product),
        is_text p1 = true /\ is_text p2 = true
        /\ forallb is_text secondary = true
        /\ description p1 <> description p2
        /\ first_match p1 secondary = Some s
        /\ first_match p2 secondary = Some s).
Proof.
  split.
  - intros c p1 p2 s secondary Hc T1 T2 Ts Hd F1 F2.
    assert (Tp : forallb is_text [p1; p2] = true)
      by (simpl; now rewrite T1, T2).
    rewrite (written_run_text [p1; p2] secondary Tp Ts Hc).
    cbn [spec_reconcile]. rewrite F1, F2. cbn [py_in existsb app].
    replace (value_eqb (description p2) (description p1)) with false;
      [reflexivity|].
    symmetry. destruct (value_eqb (description p2) (description p1)) eqn:E;
      [|reflexivity].
    apply value_eqb_eq in E. now elim Hd.
  - intros stable.
    exists (Sample.product Sample.tenA 1),
           (Sample.product Sample.nineA_B 2),
           (Sample.product Sample.tenA 7),
           [Sample.product Sample.tenA 7; Sample.product Sample.nineA_B 8].
    assert (M : forall d p, forallb is_ascii d = true ->
               matches (Sample.product d p) (Sample.product Sample.tenA 7)
               = (90 <=? score (map ascii_lower d)
                               (map ascii_lower Sample.tenA))%Z).
    { intros d p Hd. unfold matches. simpl.
      now rewrite (spec_equivalent_ascii stable) by (assumption || reflexivity). }
    repeat split; try reflexivity.
    + vm_compute. discriminate.
    + rewrite first_match_cons, M by reflexivity. vm_compute. reflexivity.
    + rewrite first_match_cons, M by reflexivity. vm_compute. reflexivity.
Qed.

End BasicLatinContract.

(** * Further properties of the code *)

(** ** Comparisons that raise *)

Section Comparison.
Context {U : Unicodedata}.

Lemma Product_eq_not_text (a b : Product) (c : lru) :
  is_text a && is_text b = false ->
  Product_eq a b c = (Raise AttributeError, c, []).
Proof.
  unfold Product_eq, bind, lower_method, is_text.
  destruct (description a), (description b); simpl;
    try discriminate; reflexivity.
Qed.

Lemma Product_eq_is_text (a b : Product) (c : lru) :
  is_text a = true -> is_text b = true ->
  exists v c', Product_eq a b c = (Ok v, c', []).
Proof.
  intros Ha Hb.
  destruct (is_text_description a Ha) as [da Ea].
  destruct (is_text_description b Hb) as [db Eb].
  unfold Product_eq, bind, lower_method. rewrite Ea, Eb. simpl.
  unfold calc_description_equivalence_ratio.
  destruct (lru_cache 50 _ _ c) as [r c']. simpl. eauto.
Qed.

(** [a == b] returns a truth value exactly when both descriptions are
    text.  Otherwise it raises [AttributeError] before the ratio is asked
    for: the cache is left as it was. *)
Theorem comparison_needs_text (a b : Product) (c : lru) :
  ((exists v, outcome (Product_eq a b c) = Ok v)
   <-> is_text a && is_text b = true)
  /\ (is_text a && is_text b = false ->
      Product_eq a b c = (Raise AttributeError, c, [])).
Proof.
  split; [|apply Product_eq_not_text].
  destruct (is_text a && is_text b) eqn:T.
  - apply andb_prop in T. destruct T as [Ha Hb].
    destruct (Product_eq_is_text a b c Ha Hb) as (v & c' & E).
    rewrite E. split; [reflexivity | intros _; now exists v].
  - rewrite (Product_eq_not_text a b c T). unfold outcome. simpl.
    split; [intros [v H]; discriminate H | discriminate].
Qed.

End Comparison.

(** ** Which runs return *)

Section Outcome.
Context {U : Unicodedata}.

Lemma for_db2_text_ok (p : Product) (l : list Product) (g : list value)
    (c : lru) :
  is_text p = true -> forallb is_text l = true ->
  exists g', outcome (for_db2 p l g c) = Ok g'.
Proof.
  intros Hp. revert g c. induction l as [|s rest IH]; intros g c Hl.
  - now exists g.
  - simpl in Hl. apply andb_prop in Hl. destruct Hl as [Hs Hrest].
    rewrite for_db2_cons.
    destruct (Product_eq_is_text p s c Hp Hs) as (v & c1 & E). rewrite E.
    destruct v; [destruct (py_in (description p) g)|].
    + destruct (IH g c1 Hrest) as [g' Hg].
      destruct (for_db2 p rest g c1) as [[r k] t]. now exists g'.
    + destruct (IH (g ++ [description p]) c1 Hrest) as [g' Hg].
      destruct (for_db2 p rest (g ++ [description p]) c1) as [[r k] t].
      now exists g'.
    + destruct (IH g c1 Hrest) as [g' Hg].
      destruct (for_db2 p rest g c1) as [[r k] t]. now exists g'.
Qed.

Lemma for_db2_raise (p : Product) (l : list Product) (g : list value)
    (c : lru) :
  l <> [] -> is_text p && forallb is_text l = false ->
  outcome (for_db2 p l g c) = Raise AttributeError.
Proof.
  revert g c. induction l as [|s rest IH]; intros g c Hne Hno.
  - now elim Hne.
  - rewrite for_db2_cons.
    destruct (is_text p && is_text s) eqn:T.
    + apply andb_prop in T. destruct T as [Hp Hs].
      assert (Hrest : is_text p && forallb is_text rest = false).
      { simpl in Hno. rewrite Hp, Hs in Hno. simpl in Hno.
        now rewrite Hp. }
      assert (Hne' : rest <> []).
      { intros ->. rewrite Hp in Hrest. discriminate Hrest. }
      destruct (Product_eq_is_text p s c Hp Hs) as (v & c1 & E). rewrite E.
      destruct v; [destruct (py_in (description p) g)|].
      * pose proof (IH g c1 Hne' Hrest) as H.
        destruct (for_db2 p rest g c1) as [[r k] t]. exact H.
      * pose proof (IH (g ++ [description p]) c1 Hne' Hrest) as H.
        destruct (for_db2 p rest (g ++ [description p]) c1) as [[r k] t].
        exact H.
      * pose proof (IH g c1 Hne' Hrest) as H.
        destruct (for_db2 p rest g c1) as [[r k] t]. exact H.
    + now rewrite (Product_eq_not_text p s c T).
Qed.

Lemma for_db1_nil_r (l1 : list Product) (g : list value) (c : lru) :
  for_db1 l1 [] g c = (Ok g, c, []).
Proof.
  induction l1 as [|p rest IH]; [reflexivity|].
  rewrite for_db1_cons. cbn [for_db2]. unfold ret. now rewrite IH.
Qed.

Lemma for_db1_text_ok (l1 l2 : list Product) (g : list value) (c : lru) :
  forallb is_text l1 = true -> forallb is_text l2 = true ->
  exists g', outcome (for_db1 l1 l2 g c) = Ok g'.
Proof.
  revert g c. induction l1 as [|p rest IH]; intros g c H1 H2.
  - now exists g.
  - simpl in H1. apply andb_prop in H1. destruct H1 as [Hp Hrest].
    rewrite for_db1_cons.
    destruct (for_db2_text_ok p l2 g c Hp H2) as [g1 Hg1].
    destruct (for_db2 p l2 g c) as [[r1 c1] t1].
    unfold outcome in Hg1. simpl in Hg1. subst r1.
    destruct (IH g1 c1 Hrest H2) as [g' Hg'].
    destruct (for_db1 rest l2 g1 c1) as [[r k] t]. now exists g'.
Qed.

Lemma for_db1_raise (l1 l2 : list Product) (g : list value) (c : lru) :
  l1 <> [] -> l2 <> [] ->
  forallb is_text l1 && forallb is_text l2 = false ->
  outcome (for_db1 l1 l2 g c) = Raise AttributeError.
Proof.
  intros Hne1 Hne2. revert g c Hne1.
  induction l1 as [|p rest IH]; intros g c Hne1 Hno; [now elim Hne1|].
  rewrite for_db1_cons.
  destruct (is_text p && forallb is_text l2) eqn:T.
  - apply andb_prop in T. destruct T as [Hp H2].
    assert (Hrest : forallb is_text rest && forallb is_text l2 = false).
    { simpl in Hno. now rewrite Hp in Hno. }
    assert (Hne' : rest <> []).
    { intros ->. simpl in Hrest. congruence. }
    destruct (for_db2_text_ok p l2 g c Hp H2) as [g1 Hg1].
    destruct (for_db2 p l2 g c) as [[r1 c1] t1].
    unfold outcome in Hg1. simpl in Hg1. subst r1.
    pose proof (IH g1 c1 Hne' Hrest) as H.
    destruct (for_db1 rest l2 g1 c1) as [[r k] t]. exact H.
  - pose proof (@for_db2_raise p l2 g c Hne2 T) as H.
    destruct (for_db2 p l2 g c) as [[r1 c1] t1].
    unfold outcome in H. simpl in H. now subst r1.
Qed.

Lemma for_db1_app (l l' l2 : list Product) (g : list value) (c : lru) :
  for_db1 (l ++ l') l2 g c =
  match for_db1 l l2 g c with
  | (Ok g1, c1, t1) =>
      match for_db1 l' l2 g1 c1 with
      | (r, c2, t2) => (r, c2, t1 ++ t2)
      end
  | (Raise e, c1, t1) => (Raise e, c1, t1)
  end.
Proof.
  revert g c. induction l as [|p l IH]; intros g c.
  - simpl. now destruct (for_db1 l' l2 g c) as [[r k] t].
  - rewrite <- app_comm_cons, !for_db1_cons.
    destruct (for_db2 p l2 g c) as [[[g1|e] c1] t1]; [|reflexivity].
    rewrite IH.
    destruct (for_db1 l l2 g1 c1) as [[[g2|e] c2] t2]; [|reflexivity].
    destruct (for_db1 l' l2 g2 c2) as [[r k] t].
    now rewrite app_assoc.
Qed.

(** The run on two materialised catalogues, whatever they hold. *)
Lemma run_migrate_of (primary secondary : list Product) (c : lru) :
  exists r c' rows,
    for_db1 primary secondary [] c = (r, c', map SinkWriterow rows)
    /\ run (migrate_of primary secondary) c
       = (unit_outcome r, c',
          map (SourceRow Db1) (map row_of primary)
            ++ map (SourceRow Db2) (map row_of secondary)
            ++ SinkEnter :: map SinkWriterow rows ++ [SinkExit]).
Proof.
  destruct (for_db1_shape primary secondary [] c)
    as (r & c' & rows & E & _ & _).
  exists r, c', rows. split; [assumption|].
  unfold run, migrate_of, set_db1, set_db2, Migrate_init. simpl.
  unfold bind at 1. rewrite iter_products_source_of.
  unfold bind at 1. rewrite iter_products_source_of.
  unfold with_output, finally, bind, emit, ret. rewrite E.
  destruct r; simpl; now rewrite ?app_nil_r.
Qed.

(** A run on two materialised catalogues returns normally exactly when
    one of them is empty or every description is text; in every other
    case it raises [AttributeError].  The cache plays no part in this. *)
Theorem run_returns_iff_text (primary secondary : list Product) (c : lru) :
  (outcome (run (migrate_of primary secondary) c) = Ok tt
   <-> primary = [] \/ secondary = []
       \/ forallb is_text primary && forallb is_text secondary = true)
  /\ (outcome (run (migrate_of primary secondary) c) = Ok tt
      \/ outcome (run (migrate_of primary secondary) c)
         = Raise AttributeError).
Proof.
  destruct (run_migrate_of primary secondary c) as (r & c' & rows & F & E).
  rewrite E. unfold outcome at 1 2 3. simpl.
  assert (Hr : outcome (for_db1 primary secondary [] c) = r)
    by now rewrite F.
  destruct primary as [|p rest].
  { simpl in Hr. subst r. simpl. split; [|now left].
    split; [intros _; now left | reflexivity]. }
  destruct secondary as [|s rest2].
  { rewrite for_db1_nil_r in Hr. simpl in Hr. subst r. simpl.
    split; [|now left]. split; [intros _; right; now left | reflexivity]. }
  destruct (forallb is_text (p :: rest) && forallb is_text (s :: rest2))
    eqn:T.
  - apply andb_prop in T. destruct T as [T1 T2].
    destruct (for_db1_text_ok (p :: rest) (s :: rest2) [] c T1 T2)
      as [g' Hg].
    rewrite Hg in Hr. subst r. simpl. split; [|now left].
    split; [intros _; right; now right | reflexivity].
  - rewrite (@for_db1_raise (p :: rest) (s :: rest2) [] c) in Hr;
      try discriminate; [|assumption].
    subst r. simpl. split; [|now right].
    split; [discriminate|].
    intros [H | [H | H]]; discriminate H.
Qed.

(** An empty catalogue on either side: nothing is compared, the run
    returns, the sink is opened and finalised with no row, and the cache
    is as before, whatever the other catalogue holds. *)
Theorem empty_catalogue_writes_nothing (primary secondary : list Product)
    (c : lru) :
  primary = [] \/ secondary = [] ->
  run (migrate_of primary secondary) c
  = (Ok tt, c,
     map (SourceRow Db1) (map row_of primary)
       ++ map (SourceRow Db2) (map row_of secondary)
       ++ [SinkEnter; SinkExit]).
Proof.
  intros H.
  destruct (run_migrate_of primary secondary c) as (r & c' & rows & F & E).
  rewrite E.
  assert (F' : for_db1 primary secondary [] c = (Ok [], c, [])).
  { destruct H as [-> | ->]; [reflexivity | apply for_db1_nil_r]. }
  rewrite F' in F. injection F as <- <- Hrows.
  destruct rows; [reflexivity | discriminate Hrows].
Qed.

(** A primary record whose description is not text stops the run with
    [AttributeError] when it is reached: the rows of the records before it
    have been written and stay written. *)
Theorem non_text_primary_keeps_earlier_rows
    (before after secondary : list Product) (p : Product) (c : lru) :
  forallb is_text before = true ->
  forallb is_text secondary = true ->
  secondary <> [] ->
  is_text p = false ->
  outcome (run (migrate_of (before ++ p :: after) secondary) c)
  = Raise AttributeError
  /\ written (trace_of (run (migrate_of (before ++ p :: after) secondary) c))
     = written (trace_of (run (migrate_of before secondary) c)).
Proof.
  intros Hb Hs Hne Hp.
  destruct (run_migrate_of (before ++ p :: after) secondary c)
    as (r & c' & rows & F & E).
  destruct (run_migrate_of before secondary c)
    as (r0 & c0 & rows0 & F0 & E0).
  rewrite E, E0. unfold outcome, trace_of. simpl.
  rewrite !written_app, !written_source_rows. simpl.
  rewrite !written_app, !written_rows. simpl. rewrite !app_nil_r.
  rewrite for_db1_app, F0 in F.
  destruct (for_db1_text_ok before secondary [] c Hb Hs) as [g0 Hg0].
  rewrite F0 in Hg0. unfold outcome in Hg0. simpl in Hg0. subst r0.
  rewrite for_db1_cons in F.
  assert (R : for_db2 p secondary g0 c0 = (Raise AttributeError, c0, [])).
  { destruct secondary as [|s rest]; [now elim Hne|].
    rewrite for_db2_cons, Product_eq_not_text; [reflexivity|].
    now rewrite Hp. }
  rewrite R in F. injection F as <- _ Hrows.
  rewrite app_nil_r in Hrows.
  split; [reflexivity|].
  rewrite <- (written_rows rows), <- (written_rows rows0). now rewrite Hrows.
Qed.

End Outcome.

(** ** What the output holds *)

Lemma Subseq_nil_l {A : Type} (l : list A) : Subseq [] l.
Proof. induction l; constructor; assumption. Qed.

Lemma Subseq_length {A : Type} (l1 l2 : list A) :
  Subseq l1 l2 -> length l1 <= length l2.
Proof. induction 1; simpl; lia. Qed.

Section Output.
Context {U : Unicodedata}.

(** The matching, whatever the records and the cache hold: the rows are
    written for primary records in their order, each with the price of
    some secondary record. *)
Lemma for_db1_pairs (l1 l2 : list Product) (g : list value) (c : lru) :
  exists r c' pairs,
    for_db1 l1 l2 g c = (r, c', map SinkWriterow (map row_of_pair pairs))
    /\ Subseq (map fst pairs) l1
    /\ Forall (fun ps => In (snd ps) l2) pairs.
Proof.
  revert g c. induction l1 as [|p rest IH]; intros g c.
  - exists (Ok g), c, []. repeat split; constructor.
  - rewrite for_db1_cons.
    destruct (for_db2_shape p l2 g c) as (r1 & c1 & rows1 & E1 & _ & Hr1).
    rewrite E1. destruct r1 as [g1|e].
    + destruct (IH g1 c1) as (r & c' & pairs & E & Hsub & Hin). rewrite E.
      destruct Hr1 as [-> | (_ & s & Hs & ->)].
      * exists r, c', pairs. repeat split; auto. now apply Subseq_skip.
      * exists r, c', ((p, s) :: pairs). repeat split.
        -- simpl. now apply Subseq_take.
        -- now constructor.
    + destruct Hr1 as [-> | (_ & s & Hs & ->)].
      * exists (Raise e), c1, []. repeat split; [apply Subseq_nil_l | constructor].
      * exists (Raise e), c1, [(p, s)]. repeat split.
        -- simpl. apply Subseq_take, Subseq_nil_l.
        -- now repeat constructor.
Qed.

(** The output follows the primary catalogue.  Whatever the records and
    the cache hold, the rows written are rows of a primary description and
    a secondary price, the primary records they come from appear in the
    order of the primary catalogue, each at most once, and so there are no
    more rows than primary records. *)
Theorem rows_follow_primary_order (primary secondary : list Product)
    (c : lru) :
  exists pairs : list (Product * Product),
    written (trace_of (run (migrate_of primary secondary) c))
    = map row_of_pair pairs
    /\ Subseq (map fst pairs) primary
    /\ Forall (fun ps => In (snd ps) secondary) pairs
    /\ length (written (trace_of (run (migrate_of primary secondary) c)))
       <= length primary.
Proof.
  destruct (run_migrate_of primary secondary c) as (r & c' & rows & F & E).
  destruct (for_db1_pairs primary secondary [] c)
    as (r' & c'' & pairs & F' & Hsub & Hin).
  rewrite E. unfold trace_of. simpl.
  rewrite !written_app, !written_source_rows. simpl.
  rewrite written_app, written_rows. simpl. rewrite app_nil_r.
  assert (Hrows : rows = map row_of_pair pairs).
  { rewrite F in F'. injection F' as _ _ H.
    rewrite <- (written_rows rows), H. apply written_rows. }
  exists pairs. rewrite Hrows. repeat split; auto.
  rewrite length_map, <- (length_map fst pairs).
  now apply Subseq_length.
Qed.

(** The sink is used as a scoped resource.  In every run the operations
    on the sink are either none at all, or one [__enter__], the rows, and
    one [__exit__] at the end, also when the matching raises. *)
Theorem sink_opened_and_finalised_once (self : Migrate) (c : lru) :
  (sink_events (trace_of (run self c)) = []
   /\ written (trace_of (run self c)) = [])
  \/ sink_events (trace_of (run self c))
     = SinkEnter :: map SinkWriterow (written (trace_of (run self c)))
         ++ [SinkExit].
Proof.
  destruct (run_cases self c)
    as [(e & rows1 & _ & E)
       |[(l1 & rows1 & e & rows2 & _ & _ & E)
        |(l1 & rows1 & l2 & rows2 & r & c' & rows & _ & _ & _ & E)]];
    rewrite E; unfold trace_of; simpl.
  - left. now rewrite sink_events_source_rows, written_source_rows.
  - left. now rewrite sink_events_app, written_app,
      !sink_events_source_rows, !written_source_rows.
  - right.
    rewrite !sink_events_app, !written_app,
      !sink_events_source_rows, !written_source_rows. simpl.
    rewrite sink_events_app, written_app, sink_events_rows, written_rows.
    simpl. now rewrite app_nil_r.
Qed.

Lemma first_match_description (p q : Product) (l : list Product) :
  description p = description q -> first_match p l = first_match q l.
Proof.
  intros H. induction l as [|s l IH]; [reflexivity|].
  now rewrite !first_match_cons, (matches_description p q s H), IH.
Qed.

Lemma first_match_some_iff (p : Product) (l : list Product) :
  (exists s, first_match p l = Some s)
  <-> exists s, In s l /\ matches p s = true.
Proof.
  unfold first_match. split.
  - intros [s H]. apply find_some in H. now exists s.
  - intros (s & Hs & Hm). destruct (find (matches p) l) as [s'|] eqn:F.
    + now exists s'.
    + rewrite (find_none _ _ F s Hs) in Hm. discriminate Hm.
Qed.

Lemma spec_reconcile_first (l1 l2 : list Product) (g : list value)
    (row : list value) :
  In row (spec_reconcile l1 l2 g) ->
  exists p s, In p l1 /\ first_match p l2 = Some s
              /\ row = [description p; price s].
Proof.
  revert g. induction l1 as [|p rest IH]; intros g; [intros []|].
  rewrite spec_reconcile_cons, in_app_iff. intros [H | H].
  - unfold pass_rows in H. destruct (py_in (description p) g); [destruct H|].
    destruct (first_match p l2) as [s|] eqn:F; [|destruct H].
    destruct H as [<- | []]. exists p, s. repeat split; auto. now left.
  - apply IH in H. destruct H as (q & s & Hq & F & ->).
    exists q, s. repeat split; auto. now right.
Qed.

Lemma spec_reconcile_complete (l1 l2 : list Product) (g : list value)
    (p s : Product) :
  In p l1 -> first_match p l2 = Some s ->
  In (description p) (g ++ map row_description (spec_reconcile l1 l2 g)).
Proof.
  revert g. induction l1 as [|q rest IH]; intros g; [intros []|].
  intros [-> | Hin] F; rewrite spec_reconcile_cons, map_app, app_assoc.
  - apply in_app_iff. left. unfold pass_rows. rewrite F.
    destruct (py_in (description p) g) eqn:Hg; simpl.
    + rewrite app_nil_r. now apply py_in_In.
    + apply in_app_iff. right. now left.
  - now apply IH.
Qed.

(** The descriptions written are exactly those of the primary records
    that some secondary record matches (text records, coherent cache):
    no matched record is lost and none is invented. *)
Theorem written_descriptions_are_the_matched
    (primary secondary : list Product) (c : lru) (d : value) :
  cache_ok c ->
  forallb is_text primary = true ->
  forallb is_text secondary = true ->
  (In d (map row_description
           (written (trace_of (run (migrate_of primary secondary) c))))
   <-> exists p s, In p primary /\ description p = d
                   /\ In s secondary /\ matches p s = true).
Proof.
  intros Hc H1 H2. rewrite (written_run_text _ _ H1 H2 Hc). split.
  - intros Hin. apply in_map_iff in Hin. destruct Hin as (row & Hd & Hrow).
    apply spec_reconcile_origin in Hrow.
    destruct Hrow as (_ & p & s & Hp & Hs & Hm & ->).
    exists p, s. repeat split; auto.
  - intros (p & s & Hp & <- & Hs & Hm).
    destruct (proj2 (first_match_some_iff p secondary))
      as [s' F]; [now exists s|].
    exact (spec_reconcile_complete primary secondary [] p Hp F).
Qed.

(** Every row carries the price of the first match (text records,
    coherent cache): a row whose description is that of the primary
    record [p] holds the price of the first secondary record that matches
    [p]. *)
Theorem written_price_is_first_match
    (primary secondary : list Product) (c : lru) (row : list value)
    (p : Product) :
  cache_ok c ->
  forallb is_text primary = true ->
  forallb is_text secondary = true ->
  In row (written (trace_of (run (migrate_of primary secondary) c))) ->
  description p = row_description row ->
  exists s, first_match p secondary = Some s
            /\ row = [description p; price s].
Proof.
  intros Hc H1 H2 Hrow Hd.
  rewrite (written_run_text _ _ H1 H2 Hc) in Hrow.
  apply spec_reconcile_first in Hrow.
  destruct Hrow as (q & s & _ & F & ->). simpl in Hd.
  exists s. rewrite (first_match_description p q secondary Hd), Hd.
  now split.
Qed.

End Output.

(** ** Materialising a source *)

Lemma iter_products_good_rows (id : db_id) (rows : list (list value))
    (c : lru) :
  Forall (fun r => 2 <= length r) rows ->
  iter_products id (source_of rows) c
  = (Ok (map product_of_row rows), c, map (SourceRow id) rows).
Proof.
  unfold source_of. induction 1 as [|row rows Hrow _ IH]; [reflexivity|].
  destruct row as [|d [|p tl]]; simpl in Hrow; try lia.
  cbn [map iter_products]. unfold bind, emit, getitem. simpl.
  rewrite IH. simpl. now rewrite app_nil_r.
Qed.

(** A row with fewer than two fields raises [IndexError] when it is
    reached: the rows before it have been read, the rows after it are never
    asked for, and no list of products is returned. *)
Theorem short_row_stops_reading (id : db_id)
    (good rest : list (list value)) (bad : list value) (c : lru) :
  Forall (fun r => 2 <= length r) good ->
  length bad < 2 ->
  _iter_products_from_db id (Some (source_of (good ++ bad :: rest))) c
  = (Raise IndexError, c, map (SourceRow id) (good ++ [bad])).
Proof.
  intros Hgood Hbad. simpl. unfold source_of.
  induction Hgood as [|row good Hrow _ IH].
  - destruct bad as [|d [|p tl]]; simpl in Hbad; try lia; reflexivity.
  - destruct row as [|d [|p tl]]; simpl in Hrow; try lia.
    cbn [app map iter_products]. unfold bind, emit, getitem. simpl.
    cbn [app map] in IH. now rewrite IH.
Qed.

(** A source that yields rows and ends is materialised exactly when every
    row has at least two fields; the products are then made of the first
    two fields of each row, in order, and further fields are ignored. *)
Theorem materialise_iff_two_fields (id : db_id) (rows : list (list value))
    (c : lru) :
  ((exists l, outcome (_iter_products_from_db id (Some (source_of rows)) c)
              = Ok l)
   <-> Forall (fun r => 2 <= length r) rows)
  /\ (Forall (fun r => 2 <= length r) rows ->
      _iter_products_from_db id (Some (source_of rows)) c
      = (Ok (map product_of_row rows), c, map (SourceRow id) rows)).
Proof.
  split; [|apply iter_products_good_rows]. split.
  - intros [l Hl]. simpl in Hl. revert l Hl.
    induction rows as [|row rows IH]; intros l Hl; [constructor|].
    unfold source_of in *. cbn [map iter_products] in Hl.
    unfold bind, emit, getitem in Hl.
    destruct row as [|d [|p tl]]; simpl in Hl; try discriminate Hl.
    destruct (iter_products id (map Yield rows) c) as [[[ps|e] k] t] eqn:E;
      simpl in Hl; try discriminate Hl.
    constructor; [simpl; lia|]. now apply (IH ps).
  - intros H. simpl. rewrite (iter_products_good_rows id c H). now eexists.
Qed.

Section MissingDatabase.
Context {U : Unicodedata}.

(** A database that was never set.  Without the first one the run raises
    [AttributeError] at once; without the second one it first reads the
    whole first database and then raises.  In both cases the sink is not
    touched. *)
Theorem run_without_database (self : Migrate) (c : lru) :
  (db1 self = None -> run self c = (Raise AttributeError, c, []))
  /\ (db2 self = None ->
      forall l1 t1,
        _iter_products_from_db Db1 (db1 self) c = (Ok l1, c, t1) ->
        run self c = (Raise AttributeError, c, t1)
        /\ sink_events t1 = []).
Proof.
  split.
  - intros H. unfold run, bind. now rewrite H.
  - intros H l1 t1 E. unfold run. unfold bind at 1. rewrite E, H. simpl.
    rewrite app_nil_r. split; [reflexivity|].
    destruct (_iter_products_from_db_shape Db1 (db1 self) c)
      as (r & rows & E').
    rewrite E in E'. injection E' as _ ->. apply sink_events_source_rows.
Qed.

End MissingDatabase.

(** ** The ratio cache *)

Lemma cache_get_none (k : key) (c : lru) :
  cache_get k c = None ->
  Forall (fun e => negb (key_eqb k (fst e)) = true) c.
Proof.
  induction c as [|[k' v] c IH]; simpl; [constructor|].
  destruct (key_eqb k k') eqn:E; [discriminate|].
  intros H. constructor; [simpl; now rewrite E | now apply IH].
Qed.

Lemma filter_all {A : Type} (f : A -> bool) (l : list A) :
  Forall (fun x => f x = true) l -> filter f l = l.
Proof.
  induction 1 as [|x l Hx _ IH]; simpl; [reflexivity|].
  now rewrite Hx, IH.
Qed.

Lemma cache_del_idem (k : key) (c : lru) :
  cache_del k (cache_del k c) = cache_del k c.
Proof.
  unfold cache_del. apply filter_all, Forall_forall.
  intros e He. apply filter_In in He. tauto.
Qed.

Lemma cache_del_head (k : key) (v : Z) (c : lru) :
  cache_del k ((k, v) :: c) = cache_del k c.
Proof.
  unfold cache_del. cbn [filter fst].
  replace (key_eqb k k) with true by (symmetry; now apply key_eqb_eq).
  reflexivity.
Qed.

Lemma cache_get_head (k : key) (v : Z) (c : lru) :
  cache_get k ((k, v) :: c) = Some v.
Proof.
  cbn [cache_get].
  replace (key_eqb k k) with true by (symmetry; now apply key_eqb_eq).
  reflexivity.
Qed.

Lemma lru_cache_repeat (maxsize : nat) (f : key -> Z) (k : key) (c : lru) :
  lru_cache maxsize f k (snd (lru_cache maxsize f k c))
  = lru_cache maxsize f k c.
Proof.
  unfold lru_cache at 2 3.
  destruct (cache_get k c) as [v|] eqn:G; cbn [fst snd];
    unfold lru_cache; rewrite cache_get_head, cache_del_head.
  - now rewrite cache_del_idem.
  - unfold cache_del. rewrite filter_all; [reflexivity|].
    apply Forall_firstn_lru. now apply cache_get_none.
Qed.

Section Cache.
Context {U : Unicodedata}.

(** Asking for the same ratio again is a hit: the second call returns the
    value of the first and leaves the cache exactly as the first call left
    it, whatever the cache held before. *)
Theorem repeated_ratio_is_a_hit (d1 d2 : str) (c : lru) :
  calc_description_equivalence_ratio d1 d2
    (cache_of (calc_description_equivalence_ratio d1 d2 c))
  = (outcome (calc_description_equivalence_ratio d1 d2 c),
     cache_of (calc_description_equivalence_ratio d1 d2 c), []).
Proof.
  unfold calc_description_equivalence_ratio.
  pose proof (lru_cache_repeat 50 description_equivalence_ratio (d1, d2) c)
    as R.
  destruct (lru_cache 50 description_equivalence_ratio (d1, d2) c)
    as [r c'].
  unfold cache_of, outcome. cbn [fst snd] in *. now rewrite R.
Qed.

Section Invariant.
Variable P : lru -> Prop.
Hypothesis P_step :
  forall k c, P c -> P (snd (lru_cache 50 description_equivalence_ratio k c)).

Lemma Product_eq_keeps (a b : Product) (c : lru) :
  P c -> P (cache_of (Product_eq a b c)).
Proof.
  intros H. unfold Product_eq, bind, lower_method.
  destruct (description a), (description b); simpl; try exact H.
  unfold calc_description_equivalence_ratio.
  pose proof (P_step (str_lower s, str_lower s0) H) as H'.
  destruct (lru_cache 50 _ _ c) as [r c']. exact H'.
Qed.

Lemma for_db2_keeps (p : Product) (l : list Product) (g : list value)
    (c : lru) :
  P c -> P (cache_of (for_db2 p l g c)).
Proof.
  revert g c. induction l as [|s rest IH]; intros g c H; [exact H|].
  rewrite for_db2_cons.
  pose proof (Product_eq_keeps p s H) as H1.
  destruct (Product_eq p s c) as [[[[|]|e] c1] t1]; unfold cache_of in H1;
    simpl in H1.
  - destruct (py_in (description p) g).
    + pose proof (IH g c1 H1) as H2.
      now destruct (for_db2 p rest g c1) as [[r k] t].
    + pose proof (IH (g ++ [description p]) c1 H1) as H2.
      now destruct (for_db2 p rest (g ++ [description p]) c1) as [[r k] t].
  - pose proof (IH g c1 H1) as H2.
    now destruct (for_db2 p rest g c1) as [[r k] t].
  - exact H1.
Qed.

Lemma for_db1_keeps (l1 l2 : list Product) (g : list value) (c : lru) :
  P c -> P (cache_of (for_db1 l1 l2 g c)).
Proof.
  revert g c. induction l1 as [|p rest IH]; intros g c H; [exact H|].
  rewrite for_db1_cons.
  pose proof (for_db2_keeps p l2 g H) as H1.
  destruct (for_db2 p l2 g c) as [[[g1|e] c1] t1]; unfold cache_of in H1;
    simpl in H1; [|exact H1].
  pose proof (IH g1 c1 H1) as H2.
  now destruct (for_db1 rest l2 g1 c1) as [[r k] t].
Qed.

Lemma run_keeps (self : Migrate) (c : lru) :
  P c -> P (cache_of (run self c)).
Proof.
  intros H.
  destruct (run_cases self c)
    as [(e & rows1 & _ & E)
       |[(l1 & rows1 & e & rows2 & _ & _ & E)
        |(l1 & rows1 & l2 & rows2 & r & c' & rows & _ & _ & F & E)]];
    rewrite E; unfold cache_of; simpl; try exact H.
  pose proof (for_db1_keeps l1 l2 [] H) as H1. now rewrite F in H1.
Qed.

End Invariant.

Lemma cache_ok_step (k : key) (c : lru) :
  cache_ok c ->
  cache_ok (snd (lru_cache 50 description_equivalence_ratio k c)).
Proof. intros H. exact (proj2 (lru_cache_sound 50 _ k H)). Qed.

Lemma cache_bounded_step (k : key) (c : lru) :
  cache_bounded c ->
  cache_bounded (snd (lru_cache 50 description_equivalence_ratio k c)).
Proof.
  unfold cache_bounded. intros H. apply lru_cache_bounded; [lia | exact H].
Qed.

(** The cache stays sound and small.  A run that starts with a cache of
    at most 50 entries, each the ratio of its key, ends with such a cache,
    whatever the sources yield and however the run ends. *)
Theorem run_keeps_cache_sound_and_bounded (self : Migrate) (c : lru) :
  cache_ok c ->
  cache_bounded c ->
  cache_ok (cache_of (run self c))
  /\ cache_bounded (cache_of (run self c)).
Proof.
  intros H1 H2. split.
  - exact (@run_keeps cache_ok cache_ok_step self c H1).
  - exact (@run_keeps cache_bounded cache_bounded_step self c H2).
Qed.

End Cache.

(** ** The cache does not show *)

Lemma iter_products_any_cache (id : db_id) (src : list read_step)
    (c1 c2 : lru) :
  exists r t,
    iter_products id src c1 = (r, c1, t)
    /\ iter_products id src c2 = (r, c2, t).
Proof.
  induction src as [|[row|e] rest IH]; cbn [iter_products].
  - now exists (Ok []), [].
  - destruct IH as (r & t & E1 & E2).
    unfold bind, emit, getitem.
    destruct row as [|d [|p tl]]; simpl; try (eexists; eexists; split; reflexivity).
    rewrite E1, E2. destruct r; simpl; eexists; eexists; split; reflexivity.
  - now exists (Raise e), [].
Qed.

Lemma _iter_products_from_db_any_cache (id : db_id)
    (db : option BaseReadDB) (c1 c2 : lru) :
  exists r t,
    _iter_products_from_db id db c1 = (r, c1, t)
    /\ _iter_products_from_db id db c2 = (r, c2, t).
Proof.
  destruct db as [src|]; simpl.
  - apply iter_products_any_cache.
  - now exists (Raise AttributeError), [].
Qed.

Section Transparency.
Context {U : Unicodedata}.

Lemma run_unfold (self : Migrate) (c : lru)
    (r1 r2 : result (list Product)) (t1 t2 : trace) :
  _iter_products_from_db Db1 (db1 self) c = (r1, c, t1) ->
  _iter_products_from_db Db2 (db2 self) c = (r2, c, t2) ->
  run self c =
  match r1 with
  | Raise e => (Raise e, c, t1)
  | Ok l1 =>
      match r2 with
      | Raise e => (Raise e, c, t1 ++ t2)
      | Ok l2 =>
          match for_db1 l1 l2 [] c with
          | (r, c', t) =>
              (unit_outcome r, c', t1 ++ t2 ++ SinkEnter :: t ++ [SinkExit])
          end
      end
  end.
Proof.
  intros E1 E2. unfold run. unfold bind at 1. rewrite E1.
  destruct r1 as [l1|e1]; [|reflexivity].
  unfold bind at 1. rewrite E2.
  destruct r2 as [l2|e2]; [|reflexivity].
  unfold with_output, finally, bind, emit, ret.
  destruct (for_db1 l1 l2 [] c) as [[r k] t].
  destruct r; simpl; now rewrite ?app_nil_r.
Qed.

Lemma Product_eq_transparent (a b : Product) (c1 c2 : lru) :
  cache_ok c1 -> cache_ok c2 ->
  outcome (Product_eq a b c1) = outcome (Product_eq a b c2).
Proof.
  intros H1 H2. destruct (is_text a && is_text b) eqn:T.
  - apply andb_prop in T. destruct T as [Ha Hb].
    destruct (Product_eq_matches a b Ha Hb H1) as (k1 & E1 & _).
    destruct (Product_eq_matches a b Ha Hb H2) as (k2 & E2 & _).
    now rewrite E1, E2.
  - now rewrite !Product_eq_not_text.
Qed.

Lemma for_db2_transparent (p : Product) (l : list Product)
    (g : list value) (c1 c2 : lru) :
  cache_ok c1 -> cache_ok c2 ->
  outcome (for_db2 p l g c1) = outcome (for_db2 p l g c2)
  /\ trace_of (for_db2 p l g c1) = trace_of (for_db2 p l g c2).
Proof.
  revert g c1 c2. induction l as [|s rest IH]; intros g c1 c2 H1 H2.
  - now split.
  - rewrite !for_db2_cons.
    pose proof (Product_eq_transparent p s H1 H2) as Ho.
    pose proof (@Product_eq_keeps U cache_ok cache_ok_step p s c1 H1) as K1.
    pose proof (@Product_eq_keeps U cache_ok cache_ok_step p s c2 H2) as K2.
    destruct (Product_eq_shape p s c1) as (r1 & k1 & E1).
    destruct (Product_eq_shape p s c2) as (r2 & k2 & E2).
    rewrite E1 in *. rewrite E2 in *.
    unfold outcome, cache_of in Ho, K1, K2. simpl in Ho, K1, K2. subst r2.
    destruct r1 as [[|]|e]; [destruct (py_in (description p) g)| |].
    + destruct (IH g k1 k2 K1 K2) as [Io It].
      destruct (for_db2 p rest g k1) as [[ra ka] ta].
      destruct (for_db2 p rest g k2) as [[rb kb] tb].
      unfold outcome, trace_of in *. simpl in *. now subst.
    + destruct (IH (g ++ [description p]) k1 k2 K1 K2) as [Io It].
      destruct (for_db2 p rest (g ++ [description p]) k1) as [[ra ka] ta].
      destruct (for_db2 p rest (g ++ [description p]) k2) as [[rb kb] tb].
      unfold outcome, trace_of in *. simpl in *. now subst.
    + destruct (IH g k1 k2 K1 K2) as [Io It].
      destruct (for_db2 p rest g k1) as [[ra ka] ta].
      destruct (for_db2 p rest g k2) as [[rb kb] tb].
      unfold outcome, trace_of in *. simpl in *. now subst.
    + now split.
Qed.

Lemma for_db1_transparent (l1 l2 : list Product) (g : list value)
    (c1 c2 : lru) :
  cache_ok c1 -> cache_ok c2 ->
  outcome (for_db1 l1 l2 g c1) = outcome (for_db1 l1 l2 g c2)
  /\ trace_of (for_db1 l1 l2 g c1) = trace_of (for_db1 l1 l2 g c2).
Proof.
  revert g c1 c2. induction l1 as [|p rest IH]; intros g c1 c2 H1 H2.
  - now split.
  - rewrite !for_db1_cons.
    destruct (for_db2_transparent p l2 g H1 H2) as [Ho Ht].
    pose proof (@for_db2_keeps U cache_ok cache_ok_step p l2 g c1 H1) as K1.
    pose proof (@for_db2_keeps U cache_ok cache_ok_step p l2 g c2 H2) as K2.
    destruct (for_db2 p l2 g c1) as [[r1 k1] t1].
    destruct (for_db2 p l2 g c2) as [[r2 k2] t2].
    unfold outcome, trace_of, cache_of in Ho, Ht, K1, K2.
    simpl in Ho, Ht, K1, K2. subst r2 t2.
    destruct r1 as [g1|e]; [|now split].
    destruct (IH g1 k1 k2 K1 K2) as [Io It].
    destruct (for_db1 rest l2 g1 k1) as [[ra ka] ta].
    destruct (for_db1 rest l2 g1 k2) as [[rb kb] tb].
    unfold outcome, trace_of in *. simpl in *. now subst.
Qed.

(** Memoisation does not change a run.  Two runs of the same [Migrate]
    from two caches, each holding true ratios only, end alike and perform
    the same reads and the same sink operations, whatever the sources
    yield. *)
Theorem run_does_not_depend_on_cache (self : Migrate) (c1 c2 : lru) :
  cache_ok c1 -> cache_ok c2 ->
  outcome (run self c1) = outcome (run self c2)
  /\ trace_of (run self c1) = trace_of (run self c2).
Proof.
  intros H1 H2.
  destruct (_iter_products_from_db_any_cache Db1 (db1 self) c1 c2)
    as (r1 & t1 & A1 & A2).
  destruct (_iter_products_from_db_any_cache Db2 (db2 self) c1 c2)
    as (r2 & t2 & B1 & B2).
  rewrite (run_unfold self A1 B1), (run_unfold self A2 B2).
  destruct r1 as [l1|e1]; [|now split].
  destruct r2 as [l2|e2]; [|now split].
  destruct (for_db1_transparent l1 l2 [] H1 H2) as [Io It].
  destruct (for_db1 l1 l2 [] c1) as [[ra ka] ta].
  destruct (for_db1 l1 l2 [] c2) as [[rb kb] tb].
  unfold outcome, trace_of in *. simpl in *. now subst.
Qed.

Lemma MockOutputDB_trace_written (STORE : list (list value)) (t : trace) :
  MockOutputDB_trace STORE t = STORE ++ written t.
Proof.
  unfold MockOutputDB_trace. revert STORE.
  induction t as [|ev t IH]; intros STORE; simpl.
  - now rewrite app_nil_r.
  - rewrite IH. destruct ev; simpl; try reflexivity.
    now rewrite <- app_assoc.
Qed.

(** Two runs into [MockOutputDB].  Its [STORE] belongs to the class and
    the guard against duplicates belongs to one run, so running the same
    [Migrate] a second time appends the same rows a second time. *)
Theorem second_run_appends_the_rows_again (self : Migrate) (c : lru)
    (STORE : list (list value)) :
  cache_ok c ->
  MockOutputDB_trace
    (MockOutputDB_trace STORE (trace_of (run self c)))
    (trace_of (run self (cache_of (run self c))))
  = STORE ++ written (trace_of (run self c))
          ++ written (trace_of (run self c)).
Proof.
  intros H.
  pose proof (@run_keeps U cache_ok cache_ok_step self c H) as H'.
  destruct (run_does_not_depend_on_cache self H' H) as [_ Ht].
  rewrite !MockOutputDB_trace_written, Ht. now rewrite app_assoc.
Qed.

(** Descriptions with the same normal form are the same product.  When
    the lower-cased descriptions of two records normalise to the same
    bytes, the records compare equal, whatever the prices. *)
Theorem same_normal_form_equivalent (da db : str) (pa pb : value)
    (c : lru) :
  cache_ok c ->
  get_normalize_description (str_lower da)
  = get_normalize_description (str_lower db) ->
  outcome (Product_eq {| description := VStr da; price := pa |}
                      {| description := VStr db; price := pb |} c)
  = Ok true.
Proof.
  intros Hc Hn.
  destruct (@Product_eq_text U
              {| description := VStr da; price := pa |}
              {| description := VStr db; price := pb |} da db c
              eq_refl eq_refl Hc) as (c' & E & _).
  rewrite E. unfold outcome, spec_equivalent, score. simpl.
  now rewrite Hn, FuzzFacts.token_sort_ratio_refl.
Qed.

(** The comparison does not see the case of Basic Latin letters: two
    pairs of Basic Latin descriptions that differ in case only compare
    alike. *)
Theorem comparison_ignores_case (da db da' db' : str)
    (pa pb pa' pb' : value) (c c' : lru) :
  basic_latin_stable U ->
  cache_ok c -> cache_ok c' ->
  forallb is_ascii da = true -> forallb is_ascii db = true ->
  forallb is_ascii da' = true -> forallb is_ascii db' = true ->
  map ascii_lower da = map ascii_lower da' ->
  map ascii_lower db = map ascii_lower db' ->
  outcome (Product_eq {| description := VStr da; price := pa |}
                      {| description := VStr db; price := pb |} c)
  = outcome (Product_eq {| description := VStr da'; price := pa' |}
                        {| description := VStr db'; price := pb' |} c').
Proof.
  intros stable Hc Hc' Ha Hb Ha' Hb' Ea Eb.
  destruct (@Product_eq_text U
              {| description := VStr da; price := pa |}
              {| description := VStr db; price := pb |} da db c
              eq_refl eq_refl Hc) as (k & E & _).
  destruct (@Product_eq_text U
              {| description := VStr da'; price := pa' |}
              {| description := VStr db'; price := pb' |} da' db' c'
              eq_refl eq_refl Hc') as (k' & E' & _).
  rewrite E, E'. unfold outcome. simpl.
  rewrite (spec_equivalent_ascii stable da db Ha Hb).
  rewrite (spec_equivalent_ascii stable da' db' Ha' Hb').
  now rewrite Ea, Eb.
Qed.

End Transparency.

(** ** The spreadsheet sink and source *)




Section Spreadsheet.
Context {U : Unicodedata}.


End Spreadsheet.

(** Reading a spreadsheet: the materialisation is the one of the rows of
    the sheet, and the reader is closed exactly when every row has at
    least two fields.  A row that cannot be indexed leaves the workbook
    open. *)
Theorem xlsx_reader_closed_iff_materialised (id : db_id)
    (sheet_values : list (list value)) (c : lru) :
  fst (XlsxReadDB_products sheet_values)
  = outcome (_iter_products_from_db id (Some (source_of sheet_values)) c)
  /\ (snd (XlsxReadDB_products sheet_values) = true
      <-> Forall (fun r => 2 <= length r) sheet_values).
Proof.
  simpl. unfold source_of.
  induction sheet_values as [|row rest [IH1 IH2]].
  - split; [reflexivity|]. split; [constructor | reflexivity].
  - cbn [map iter_products XlsxReadDB_products].
    unfold bind, emit, getitem.
    destruct row as [|d [|p tl]]; simpl.
    + split; [reflexivity|]. split; [discriminate|].
      intros H. inversion H; subst. simpl in *. lia.
    + split; [reflexivity|]. split; [discriminate|].
      intros H. inversion H; subst. simpl in *. lia.
    + destruct (XlsxReadDB_products rest) as [[ps|e] closed];
        destruct (iter_products id (map Yield rest) c) as [[[ps'|e'] k] t];
        unfold outcome in *; simpl in *; try discriminate IH1;
        injection IH1 as ->;
        (split; [reflexivity|]);
        rewrite IH2; (split; [intros H; constructor; [simpl; lia | exact H]
                             | intros H; now inversion H]).
Qed.

(** * The contract at concrete inputs

    From here on the interpreter's Unicode database is the Latin-1
    instance, which computes. *)

#[local] Existing Instance Latin1.ucd.

(** ** The cases of [tests.py] *)

Example test_check_product_true_equivalency :
  outcome (Product_eq (Sample.product Sample.colonia_avon_london 134)
                      (Sample.product Sample.coloniia_avao_london 123) [])
  = Ok true.
Proof. vm_compute. reflexivity. Qed.

Example test_check_product_false_equivalency :
  outcome (Product_eq (Sample.product Sample.colonia_musk_marine 123)
                      (Sample.product Sample.colonia_musk_fresh 134) [])
  = Ok false.
Proof. vm_compute. reflexivity. Qed.

Example test_migrate :
  written (trace_of (run (migrate_of
     [Sample.product Sample.colonia_avon_turbo 250;
      Sample.product Sample.avon_luck 50]
     [Sample.product Sample.coloniia_avao_turbo 100;
      Sample.product Sample.avao_luck 124]) []))
  = [[VStr Sample.colonia_avon_turbo; VNum 100];
     [VStr Sample.avon_luck; VNum 124]].
Proof. vm_compute. reflexivity. Qed.

(** The first match is kept although a later record scores higher. *)
Example first_not_best :
  score (lit "aaaaaaaaab") (lit "aaaaaaaaaa") = 90%Z
  /\ score (lit "aaaaaaaaab") (lit "aaaaaaaaab") = 100%Z
  /\ written (trace_of (run (migrate_of
       [Sample.product Sample.nineA_B 2]
       [Sample.product Sample.tenA 7; Sample.product Sample.nineA_B 8]) []))
     = [[VStr Sample.nineA_B; VNum 7]].
Proof. repeat split; vm_compute; reflexivity. Qed.

(** A record whose description is not text stops the matching; the sink
    is finalised all the same. *)
Example non_text_description :
  run (mkMigrate (Some [Yield [VNum 3; VNum 1]])
                 (Some [Yield [VNum 3; VNum 1]])) []
  = (Raise AttributeError, [],
     [SourceRow Db1 [VNum 3; VNum 1]; SourceRow Db2 [VNum 3; VNum 1];
      SinkEnter; SinkExit]).
Proof. reflexivity. Qed.

(** ** C4: the normaliser as the claim words it *)

(** C4, as stated, fails: the normaliser returns the text [aB] as it is,
    with a lower-case and an upper-case letter. *)
Lemma normalizer_keeps_mixed_case :
  get_normalize_description (lit "aB") = lit "aB"
  /\ single_case (get_normalize_description (lit "aB")) = false
  /\ ~ (forall s : str, single_case (get_normalize_description s) = true).
Proof.
  split; [reflexivity|]. split; [reflexivity|].
  intros H. specialize (H (lit "aB")). discriminate H.
Qed.

(** ** Instances *)

Lemma first_match_wins_witness :
  Forall (fun x => matches (Sample.product Sample.nineA_B 2) x = false)
         [Sample.product (lit "zzz") 5]
  /\ matches (Sample.product Sample.nineA_B 2)
             (Sample.product Sample.tenA 7) = true
  /\ (exists rest,
        written (trace_of (run (migrate_of
          ([Sample.product Sample.tenA 1]
             ++ Sample.product Sample.nineA_B 2 :: [])
          ([Sample.product (lit "zzz") 5]
             ++ Sample.product Sample.tenA 7
             :: [Sample.product Sample.nineA_B 8])) []))
        = written (trace_of (run (migrate_of
            [Sample.product Sample.tenA 1]
            ([Sample.product (lit "zzz") 5]
               ++ Sample.product Sample.tenA 7
               :: [Sample.product Sample.nineA_B 8])) []))
            ++ [VStr Sample.nineA_B; VNum 7] :: rest
        /\ ~ In (VStr Sample.nineA_B) (map row_description rest)).
Proof.
  assert (Hpre : Forall
            (fun x => matches (Sample.product Sample.nineA_B 2) x = false)
            [Sample.product (lit "zzz") 5]).
  { constructor; [vm_compute; reflexivity | constructor]. }
  assert (Hs : matches (Sample.product Sample.nineA_B 2)
                       (Sample.product Sample.tenA 7) = true).
  { vm_compute. reflexivity. }
  split; [exact Hpre|]. split; [exact Hs|].
  refine (proj1 (@first_match_wins Latin1.ucd []
            [Sample.product Sample.tenA 1] []
            [Sample.product (lit "zzz") 5]
            [Sample.product Sample.nineA_B 8]
            (Sample.product Sample.nineA_B 2)
            (Sample.product Sample.tenA 7)
            cache_ok_nil eq_refl eq_refl Hpre Hs _)).
  vm_compute. intros [H | []]. discriminate H.
Defined.

Lemma equivalence_rule_witness :
  cache_ok []
  /\ (outcome (Product_eq (Sample.product Sample.colonia_avon_london 134)
                 (Sample.product Sample.coloniia_avao_london 123) [])
      = Ok true <->
      (90 <= score
               (get_normalize_description
                  (str_lower Sample.colonia_avon_london))
               (get_normalize_description
                  (str_lower Sample.coloniia_avao_london)))%Z).
Proof.
  split; [exact cache_ok_nil|].
  exact (proj1 (@equivalence_rule Latin1.ucd
           (Sample.product Sample.colonia_avon_london 134)
           (Sample.product Sample.coloniia_avao_london 123)
           Sample.colonia_avon_london Sample.coloniia_avao_london []
           cache_ok_nil eq_refl eq_refl)).
Defined.

Lemma normalizer_contract_witness :
  basic_latin_stable Latin1.ucd
  /\ forallb is_ascii (lit "aB") = true
  /\ get_normalize_description (lit "aB") = lit "aB".
Proof.
  split; [exact Latin1_basic_latin_stable|]. split; [reflexivity|].
  exact (proj2 (proj2 (@normalizer_contract Latin1.ucd (lit "aB")
                         Latin1_basic_latin_stable)) eq_refl).
Defined.

Lemma similarity_symmetric_witness :
  cache_ok []
  /\ outcome (calc_description_equivalence_ratio
                Sample.tenA Sample.nineA_B [])
     = outcome (calc_description_equivalence_ratio
                  Sample.nineA_B Sample.tenA []).
Proof.
  split; [exact cache_ok_nil|].
  exact (proj1 (@similarity_symmetric Latin1.ucd
                  Sample.tenA Sample.nineA_B [] []
                  cache_ok_nil cache_ok_nil)).
Defined.

Lemma same_description_equivalent_witness :
  cache_ok []
  /\ outcome (Product_eq
                {| description := VStr Sample.colonia_avon_london;
                   price := VNum 134 |}
                {| description := VStr Sample.colonia_avon_london;
                   price := VNum 123 |} [])
     = Ok true.
Proof.
  split; [exact cache_ok_nil|].
  exact (proj1 (@same_description_equivalent Latin1.ucd
                  Sample.colonia_avon_london (VNum 134) (VNum 123) []
                  cache_ok_nil)).
Defined.

Lemma equivalence_not_transitive_witness :
  basic_latin_stable Latin1.ucd
  /\ exists A B C : Product,
       forall c, cache_ok c ->
         outcome (Product_eq A B c) = Ok true
         /\ outcome (Product_eq B C c) = Ok true
         /\ outcome (Product_eq A C c) = Ok false.
Proof.
  split; [exact Latin1_basic_latin_stable|].
  exact (@equivalence_not_transitive Latin1.ucd Latin1_basic_latin_stable).
Defined.

Lemma unmatched_silently_dropped_witness :
  cache_ok []
  /\ forallb is_text [Sample.product Sample.colonia_musk_marine 123] = true
  /\ forallb is_text [Sample.product Sample.colonia_musk_fresh 134] = true
  /\ outcome (run (migrate_of
                [Sample.product Sample.colonia_musk_marine 123]
                [Sample.product Sample.colonia_musk_fresh 134]) [])
     = Ok tt.
Proof.
  split; [exact cache_ok_nil|]. split; [reflexivity|]. split; [reflexivity|].
  exact (proj1 (@unmatched_silently_dropped Latin1.ucd []
                  [Sample.product Sample.colonia_musk_marine 123]
                  [Sample.product Sample.colonia_musk_fresh 134]
                  cache_ok_nil eq_refl eq_refl)).
Defined.

Lemma secondary_record_reused_witness :
  description (Sample.product Sample.tenA 1)
  <> description (Sample.product Sample.nineA_B 2)
  /\ first_match (Sample.product Sample.tenA 1)
       [Sample.product Sample.tenA 7; Sample.product Sample.nineA_B 8]
     = Some (Sample.product Sample.tenA 7)
  /\ first_match (Sample.product Sample.nineA_B 2)
       [Sample.product Sample.tenA 7; Sample.product Sample.nineA_B 8]
     = Some (Sample.product Sample.tenA 7)
  /\ written (trace_of (run (migrate_of
       [Sample.product Sample.tenA 1; Sample.product Sample.nineA_B 2]
       [Sample.product Sample.tenA 7; Sample.product Sample.nineA_B 8]) []))
     = [[VStr Sample.tenA; VNum 7]; [VStr Sample.nineA_B; VNum 7]].
Proof.
  assert (Hd : description (Sample.product Sample.tenA 1)
               <> description (Sample.product Sample.nineA_B 2))
    by (vm_compute; discriminate).
  assert (F1 : first_match (Sample.product Sample.tenA 1)
                 [Sample.product Sample.tenA 7;
                  Sample.product Sample.nineA_B 8]
               = Some (Sample.product Sample.tenA 7))
    by (vm_compute; reflexivity).
  assert (F2 : first_match (Sample.product Sample.nineA_B 2)
                 [Sample.product Sample.tenA 7;
                  Sample.product Sample.nineA_B 8]
               = Some (Sample.product Sample.tenA 7))
    by (vm_compute; reflexivity).
  split; [exact Hd|]. split; [exact F1|]. split; [exact F2|].
  exact (proj1 (@secondary_record_reused Latin1.ucd) []
           (Sample.product Sample.tenA 1) (Sample.product Sample.nineA_B 2)
           (Sample.product Sample.tenA 7)
           [Sample.product Sample.tenA 7; Sample.product Sample.nineA_B 8]
           cache_ok_nil eq_refl eq_refl eq_refl Hd F1 F2).
Defined.

Lemma read_failure_atomicity_witness :
  reading_fails (mkMigrate (Some Sample.short_row_source) (Some []))
                [] IndexError
  /\ outcome (run (mkMigrate (Some Sample.short_row_source) (Some [])) [])
     = Raise IndexError
  /\ sink_events
       (trace_of (run (mkMigrate (Some Sample.short_row_source) (Some []))
                      []))
     = [].
Proof.
  assert (H : reading_fails
                (mkMigrate (Some Sample.short_row_source) (Some []))
                [] IndexError) by (left; reflexivity).
  split; [exact H|].
  exact (proj1 (@read_failure_atomicity Latin1.ucd
                  (mkMigrate (Some Sample.short_row_source) (Some [])) [])
               IndexError H).
Defined.

(** ** Instances of the further properties *)

Lemma comparison_needs_text_witness :
  is_text Cases.numbered && is_text (Sample.product Sample.tenA 1) = false
  /\ Product_eq Cases.numbered (Sample.product Sample.tenA 1) []
     = (Raise AttributeError, [], []).
Proof.
  split; [reflexivity|].
  exact (proj2 (@comparison_needs_text Latin1.ucd Cases.numbered
                  (Sample.product Sample.tenA 1) []) eq_refl).
Defined.

Lemma empty_catalogue_writes_nothing_witness :
  run (migrate_of [Cases.numbered] []) []
  = (Ok tt, [],
     map (SourceRow Db1) (map row_of [Cases.numbered])
       ++ map (SourceRow Db2) (map row_of [])
       ++ [SinkEnter; SinkExit]).
Proof.
  exact (@empty_catalogue_writes_nothing Latin1.ucd [Cases.numbered] [] []
           (or_intror eq_refl)).
Defined.

Lemma non_text_primary_keeps_earlier_rows_witness :
  is_text Cases.numbered = false
  /\ outcome (run (migrate_of
       ([Sample.product Sample.tenA 1] ++ Cases.numbered :: [])
       [Sample.product Sample.tenA 7]) [])
     = Raise AttributeError
  /\ written (trace_of (run (migrate_of
       ([Sample.product Sample.tenA 1] ++ Cases.numbered :: [])
       [Sample.product Sample.tenA 7]) []))
     = written (trace_of (run (migrate_of
         [Sample.product Sample.tenA 1]
         [Sample.product Sample.tenA 7]) [])).
Proof.
  split; [reflexivity|].
  refine (@non_text_primary_keeps_earlier_rows Latin1.ucd
            [Sample.product Sample.tenA 1] []
            [Sample.product Sample.tenA 7] Cases.numbered []
            eq_refl eq_refl _ eq_refl).
  discriminate.
Defined.

Lemma written_descriptions_are_the_matched_witness :
  cache_ok []
  /\ (In (VStr Sample.tenA)
         (map row_description
            (written (trace_of (run (migrate_of
               [Sample.product Sample.tenA 1;
                Sample.product (lit "zzz") 5]
               [Sample.product Sample.tenA 7]) []))))
      <-> exists p s,
            In p [Sample.product Sample.tenA 1;
                  Sample.product (lit "zzz") 5]
            /\ description p = VStr Sample.tenA
            /\ In s [Sample.product Sample.tenA 7]
            /\ matches p s = true).
Proof.
  split; [exact cache_ok_nil|].
  exact (@written_descriptions_are_the_matched Latin1.ucd
           [Sample.product Sample.tenA 1; Sample.product (lit "zzz") 5]
           [Sample.product Sample.tenA 7] [] (VStr Sample.tenA)
           cache_ok_nil eq_refl eq_refl).
Defined.

Lemma written_price_is_first_match_witness :
  In [VStr Sample.nineA_B; VNum 7]
     (written (trace_of (run (migrate_of
        [Sample.product Sample.nineA_B 2]
        [Sample.product Sample.tenA 7;
         Sample.product Sample.nineA_B 8]) [])))
  /\ exists s,
       first_match (Sample.product Sample.nineA_B 2)
         [Sample.product Sample.tenA 7; Sample.product Sample.nineA_B 8]
       = Some s
       /\ [VStr Sample.nineA_B; VNum 7]
          = [description (Sample.product Sample.nineA_B 2); price s].
Proof.
  assert (H : In [VStr Sample.nineA_B; VNum 7]
                (written (trace_of (run (migrate_of
                   [Sample.product Sample.nineA_B 2]
                   [Sample.product Sample.tenA 7;
                    Sample.product Sample.nineA_B 8]) [])))).
  { vm_compute. left. reflexivity. }
  split; [exact H|].
  exact (@written_price_is_first_match Latin1.ucd
           [Sample.product Sample.nineA_B 2]
           [Sample.product Sample.tenA 7; Sample.product Sample.nineA_B 8]
           [] [VStr Sample.nineA_B; VNum 7]
           (Sample.product Sample.nineA_B 2)
           cache_ok_nil eq_refl eq_refl H eq_refl).
Defined.

Lemma short_row_stops_reading_witness :
  Forall (fun r => 2 <= length r) [Cases.three_fields]
  /\ length Cases.one_field < 2
  /\ _iter_products_from_db Db1
       (Some (source_of ([Cases.three_fields]
                           ++ Cases.one_field :: [Cases.three_fields])))
       []
     = (Raise IndexError, [],
        map (SourceRow Db1) ([Cases.three_fields] ++ [Cases.one_field])).
Proof.
  assert (H1 : Forall (fun r => 2 <= length r) [Cases.three_fields]).
  { constructor; [simpl; lia | constructor]. }
  assert (H2 : length Cases.one_field < 2) by (simpl; lia).
  split; [exact H1|]. split; [exact H2|].
  exact (@short_row_stops_reading Db1 [Cases.three_fields]
           [Cases.three_fields] Cases.one_field [] H1 H2).
Defined.

Lemma materialise_iff_two_fields_witness :
  Forall (fun r => 2 <= length r) [Cases.three_fields]
  /\ _iter_products_from_db Db1 (Some (source_of [Cases.three_fields])) []
     = (Ok [Sample.product Sample.tenA 1], [],
        [SourceRow Db1 Cases.three_fields]).
Proof.
  assert (H1 : Forall (fun r => 2 <= length r) [Cases.three_fields]).
  { constructor; [simpl; lia | constructor]. }
  split; [exact H1|].
  exact (proj2 (@materialise_iff_two_fields Db1 [Cases.three_fields] []) H1).
Defined.

Lemma run_without_database_witness :
  db2 (set_db1 Migrate_init (source_of [Cases.three_fields])) = None
  /\ run (set_db1 Migrate_init (source_of [Cases.three_fields])) []
     = (Raise AttributeError, [], [SourceRow Db1 Cases.three_fields]).
Proof.
  split; [reflexivity|].
  exact (proj1 (proj2 (@run_without_database Latin1.ucd
                         (set_db1 Migrate_init
                            (source_of [Cases.three_fields])) [])
                  eq_refl
                  [Sample.product Sample.tenA 1]
                  [SourceRow Db1 Cases.three_fields] eq_refl)).
Defined.

Lemma run_keeps_cache_sound_and_bounded_witness :
  cache_ok Cases.one_entry
  /\ cache_bounded Cases.one_entry
  /\ cache_ok (cache_of (run (migrate_of
       [Sample.product Sample.tenA 1]
       [Sample.product Sample.tenA 7]) Cases.one_entry))
  /\ cache_bounded (cache_of (run (migrate_of
       [Sample.product Sample.tenA 1]
       [Sample.product Sample.tenA 7]) Cases.one_entry)).
Proof.
  assert (H1 : cache_ok Cases.one_entry).
  { constructor; [vm_compute; reflexivity | constructor]. }
  assert (H2 : cache_bounded Cases.one_entry).
  { unfold cache_bounded. simpl. lia. }
  split; [exact H1|]. split; [exact H2|].
  exact (@run_keeps_cache_sound_and_bounded Latin1.ucd
           (migrate_of [Sample.product Sample.tenA 1]
                       [Sample.product Sample.tenA 7])
           Cases.one_entry H1 H2).
Defined.

Lemma run_does_not_depend_on_cache_witness :
  cache_ok Cases.one_entry
  /\ outcome (run (migrate_of [Sample.product Sample.tenA 1]
                              [Sample.product Sample.tenA 7]) [])
     = outcome (run (migrate_of [Sample.product Sample.tenA 1]
                                [Sample.product Sample.tenA 7])
                    Cases.one_entry)
  /\ trace_of (run (migrate_of [Sample.product Sample.tenA 1]
                               [Sample.product Sample.tenA 7]) [])
     = trace_of (run (migrate_of [Sample.product Sample.tenA 1]
                                 [Sample.product Sample.tenA 7])
                     Cases.one_entry).
Proof.
  assert (H1 : cache_ok Cases.one_entry).
  { constructor; [vm_compute; reflexivity | constructor]. }
  split; [exact H1|].
  exact (@run_does_not_depend_on_cache Latin1.ucd
           (migrate_of [Sample.product Sample.tenA 1]
                       [Sample.product Sample.tenA 7])
           [] Cases.one_entry cache_ok_nil H1).
Defined.

Lemma second_run_appends_the_rows_again_witness :
  MockOutputDB_trace
    (MockOutputDB_trace []
       (trace_of (run (migrate_of [Sample.product Sample.tenA 1]
                                  [Sample.product Sample.tenA 7]) [])))
    (trace_of (run (migrate_of [Sample.product Sample.tenA 1]
                               [Sample.product Sample.tenA 7])
       (cache_of (run (migrate_of [Sample.product Sample.tenA 1]
                                  [Sample.product Sample.tenA 7]) []))))
  = [] ++ written (trace_of (run (migrate_of
                [Sample.product Sample.tenA 1]
                [Sample.product Sample.tenA 7]) []))
       ++ written (trace_of (run (migrate_of
                [Sample.product Sample.tenA 1]
                [Sample.product Sample.tenA 7]) [])).
Proof.
  exact (@second_run_appends_the_rows_again Latin1.ucd
           (migrate_of [Sample.product Sample.tenA 1]
                       [Sample.product Sample.tenA 7])
           [] [] cache_ok_nil).
Defined.

Lemma same_normal_form_equivalent_witness :
  get_normalize_description (str_lower Cases.o_stroke)
  = get_normalize_description (str_lower Cases.thorn)
  /\ outcome (Product_eq
                {| description := VStr Cases.o_stroke; price := VNum 1 |}
                {| description := VStr Cases.thorn; price := VNum 2 |} [])
     = Ok true.
Proof.
  assert (H : get_normalize_description (str_lower Cases.o_stroke)
              = get_normalize_description (str_lower Cases.thorn))
    by reflexivity.
  split; [exact H|].
  exact (@same_normal_form_equivalent Latin1.ucd
           Cases.o_stroke Cases.thorn (VNum 1) (VNum 2) []
           cache_ok_nil H).
Defined.

Lemma comparison_ignores_case_witness :
  map ascii_lower Cases.avon_upper = map ascii_lower Cases.avon_mixed
  /\ outcome (Product_eq
                {| description := VStr Cases.avon_upper; price := VNum 1 |}
                {| description := VStr Cases.avon_lower; price := VNum 2 |}
                [])
     = outcome (Product_eq
                  {| description := VStr Cases.avon_mixed; price := VNum 3 |}
                  {| description := VStr Cases.avon_lower; price := VNum 4 |}
                  Cases.one_entry).
Proof.
  assert (H1 : cache_ok Cases.one_entry).
  { constructor; [vm_compute; reflexivity | constructor]. }
  split; [reflexivity|].
  exact (@comparison_ignores_case Latin1.ucd
           Cases.avon_upper Cases.avon_lower
           Cases.avon_mixed Cases.avon_lower
           (VNum 1) (VNum 2) (VNum 3) (VNum 4) [] Cases.one_entry
           Latin1_basic_latin_stable cache_ok_nil H1
           eq_refl eq_refl eq_refl eq_refl eq_refl eq_refl).
Defined.
